(** * Azure OpenAI demo notebooks: speech synthesis and structured extraction

    A shallow embedding of the two notebooks of the repository:

    - the text-to-speech notebook (cells [VOICES], [gpt4ominitts] and the
      Gradio form that calls it), and
    - the structured-outputs notebook (environment cell, client cell, and
      the request / [json.loads] cells of its three examples).

    Both notebooks are sequential scripts over external collaborators: the
    process environment, a dotenv file, the hosted service behind the
    [openai] SDK, the file system behind [tempfile], and the Gradio form.
    Those collaborators are modelled by an explicit [World] that the
    notebook code threads through a small state-and-exception monad; every
    observable action is appended to the world's [trace]. *)

From Stdlib Require Import ZArith String Ascii List Bool Lia.
From Stdlib Require Import Init.Byte.
From stdpp Require Import gmap strings list fin_maps pretty.

Set Warnings "-register-all,-clear-no-such-hyp".

(** ** Python exceptions that the notebooks and their libraries can raise *)

Inductive exn : Type :=
| NameError (name : string)
| TypeError
| IndexError
| KeyError (key : string)
| ValueError
| JSONDecodeError
| FileExistsError
| OpenAIError
| APIConnectionError
| APITimeoutError
| AuthenticationError
| BadRequestError
| APIStatusError (status : Z)
| GradioError.

(** ** Data exchanged with the hosted service *)

(** The state of an [AzureOpenAI] client object after construction. *)
Record Client : Type := {
  azure_endpoint : string;
  api_key : option string;
  azure_ad_token : option string;
  client_api_version : string
}.

(** Keyword arguments of [client.audio.speech.create]. *)
Record SpeechRequest : Type := {
  sp_model : string;
  sp_voice : string;
  sp_input : string;
  sp_instructions : string;
  sp_response_format : string
}.

(** One entry of the [messages] list: [{"role": ..., "content": ...}]. *)
Record Message : Type := {
  role : string;
  content : string
}.

(** Semantic type of a declared field of a pydantic model. *)
Inductive FieldType : Type :=
| TStr
| TInt
| TNumber
| TBool
| TEnum (values : list string).

(** A pydantic [BaseModel] subclass: its name and its annotated fields, in
    declaration order. *)
Record Schema : Type := {
  schema_name : string;
  schema_fields : list (string * FieldType)
}.

(** The function tool [openai.pydantic_function_tool] builds from a model:
    strict, every declared field required, no additional property. *)
Record Tool : Type := {
  tool_name : string;
  tool_strict : bool;
  tool_properties : list (string * FieldType);
  tool_required : list string;
  tool_additional_properties : bool
}.

Definition pydantic_function_tool (s : Schema) : Tool :=
  {| tool_name := schema_name s;
     tool_strict := true;
     tool_properties := schema_fields s;
     tool_required := map fst (schema_fields s);
     tool_additional_properties := false |}.

(** Keyword arguments of [client.chat.completions.create]. *)
Record ChatRequest : Type := {
  ch_model : string;
  ch_messages : list Message;
  ch_tools : list Tool
}.

(** [Function(arguments=..., name=...)]. *)
Record Function : Type := {
  fn_arguments : string;
  fn_name : string
}.

(** [ChatCompletionMessageToolCall]. *)
Record ToolCall : Type := {
  tc_id : string;
  tc_function : Function;
  tc_type : string
}.

(** [ChatCompletionMessage]; [tool_calls] is [None] when the model answers
    with free text. *)
Record ChatCompletionMessage : Type := {
  msg_content : option string;
  msg_refusal : option string;
  msg_role : string;
  tool_calls : option (list ToolCall)
}.

Record Choice : Type := {
  finish_reason : string;
  index : Z;
  message : ChatCompletionMessage
}.

Record ChatCompletion : Type := {
  cc_id : string;
  choices : list Choice;
  cc_model : string
}.

(** ** Observable actions *)

(** One [EvSpeechCreate] / [EvChatCreate] stands for one SDK call that
    reaches the network; the transport's own retries are below this
    model. *)
Inductive Event : Type :=
| EvLoadDotenv (path : string)
| EvGetenv (name : string)
| EvSpeechCreate (c : Client) (r : SpeechRequest)
| EvChatCreate (c : Client) (r : ChatRequest)
| EvFileCreate (path : string)
| EvFileWrite (path : string) (data : list byte)
| EvFileClose (path : string)
| EvSleep (milliseconds : Z).

(** ** The world outside the notebook code *)

Record World : Type := {
  (** [os.environ] *)
  environ : gmap string string;
  (** the bindings each dotenv file on disk declares (absent: no file) *)
  dotenv_files : gmap string (gmap string string);
  (** is the name [os] bound in the interactive session *)
  os_bound : bool;
  (** contents of the files on disk *)
  files : gmap string (list byte);
  (** [tempfile.gettempdir()] *)
  tempdir : string;
  (** the random names [tempfile] draws, and how many were drawn *)
  rand_names : nat → string;
  rand_pos : nat;
  (** what the speech endpoint answers, given everything done so far *)
  speech_service : list Event → Client → SpeechRequest → exn + list byte;
  (** what the chat-completions endpoint answers *)
  chat_service : list Event → Client → ChatRequest → exn + ChatCompletion;
  (** every observable action so far, oldest first *)
  trace : list Event
}.

Definition log (e : Event) (w : World) : World :=
  {| environ := environ w; dotenv_files := dotenv_files w;
     os_bound := os_bound w; files := files w; tempdir := tempdir w;
     rand_names := rand_names w; rand_pos := rand_pos w;
     speech_service := speech_service w; chat_service := chat_service w;
     trace := trace w ++ [e] |}.

Definition set_environ (env : gmap string string) (w : World) : World :=
  {| environ := env; dotenv_files := dotenv_files w;
     os_bound := os_bound w; files := files w; tempdir := tempdir w;
     rand_names := rand_names w; rand_pos := rand_pos w;
     speech_service := speech_service w; chat_service := chat_service w;
     trace := trace w |}.

Definition set_files (fs : gmap string (list byte)) (w : World) : World :=
  {| environ := environ w; dotenv_files := dotenv_files w;
     os_bound := os_bound w; files := fs; tempdir := tempdir w;
     rand_names := rand_names w; rand_pos := rand_pos w;
     speech_service := speech_service w; chat_service := chat_service w;
     trace := trace w |}.

Definition draw_name (w : World) : World :=
  {| environ := environ w; dotenv_files := dotenv_files w;
     os_bound := os_bound w; files := files w; tempdir := tempdir w;
     rand_names := rand_names w; rand_pos := S (rand_pos w);
     speech_service := speech_service w; chat_service := chat_service w;
     trace := trace w |}.

(** ** The monad of notebook code: state passing with exceptions *)

Definition M (A : Type) : Type := World → (exn + A) * World.

#[global] Instance M_ret : MRet M := λ A (x : A) w, (inr x, w).

#[global] Instance M_bind : MBind M := λ A B (f : A → M B) (m : M A) w,
  match m w with
  | (inl e, w') => (inl e, w')
  | (inr x, w') => f x w'
  end.

Definition raise {A : Type} (e : exn) : M A := λ w, (inl e, w).

Definition emit (e : Event) : M unit := λ w, (inr tt, log e w).

Definition get_world : M World := λ w, (inr w, w).

Definition modify (f : World → World) : M unit := λ w, (inr tt, f w).

(** ** Library calls *)

(** [os.getenv(name)]: the value in [os.environ], or [None]. *)
Definition os_getenv (name : string) : M (option string) :=
  emit (EvGetenv name);;
  w ← get_world;
  mret (environ w !! name).

(** [load_dotenv(path)] with the default [override=False]: each binding of
    the file is put into [os.environ] unless the variable is already set; a
    missing file is not an error. *)
Definition load_dotenv (path : string) : M unit :=
  emit (EvLoadDotenv path);;
  w ← get_world;
  match dotenv_files w !! path with
  | Some bindings => modify (set_environ (environ w ∪ bindings))
  | None => mret tt
  end.

(** [AzureOpenAI.__init__] on the arguments the notebooks pass.  A [None]
    key falls back to [AZURE_OPENAI_API_KEY]; without a key and without
    [AZURE_OPENAI_AD_TOKEN] the constructor raises [OpenAIError]; a [None]
    endpoint falls back to [AZURE_OPENAI_ENDPOINT] and is a [ValueError]
    when that is unset too. *)
Definition AzureOpenAI_init (env : gmap string string)
    (endpoint key : option string) (version : string) : exn + Client :=
  let key := from_option Some (env !! "AZURE_OPENAI_API_KEY") key in
  let ad_token := env !! "AZURE_OPENAI_AD_TOKEN" in
  match key, ad_token with
  | None, None => inl OpenAIError
  | _, _ =>
      match from_option Some (env !! "AZURE_OPENAI_ENDPOINT") endpoint with
      | None => inl ValueError
      | Some ep =>
          inr {| azure_endpoint := ep; api_key := key;
                 azure_ad_token := ad_token;
                 client_api_version := version |}
      end
  end.

(** [AzureOpenAI(azure_endpoint=..., api_key=..., api_version=...)]: the
    constructor looks at [os.environ] only; it does not touch the
    network. *)
Definition AzureOpenAI (endpoint key : option string) (version : string)
  : M Client :=
  w ← get_world;
  match AzureOpenAI_init (environ w) endpoint key version with
  | inl e => raise e
  | inr c => mret c
  end.

(** [client.audio.speech.create(...)] followed by [.content]: one request;
    the service either answers with the audio bytes or the SDK raises. *)
Definition audio_speech_create (c : Client) (r : SpeechRequest)
  : M (list byte) :=
  w ← get_world;
  emit (EvSpeechCreate c r);;
  match speech_service w (trace w) c r with
  | inl e => raise e
  | inr audio => mret audio
  end.

(** [tempfile.TMP_MAX] *)
Definition TMP_MAX : nat := Z.to_nat 10000.

(** [tempfile._mkstemp_inner]: draw random names until one does not exist,
    create that file exclusively, give up after [TMP_MAX] draws. *)
Fixpoint mkstemp_inner (tries : nat) (dir pre suf : string) : M string :=
  match tries with
  | O => raise FileExistsError
  | S tries' =>
      w ← get_world;
      let name := rand_names w (rand_pos w) in
      let file := dir +:+ "/" +:+ pre +:+ name +:+ suf in
      modify draw_name;;
      match files w !! file with
      | Some _ => mkstemp_inner tries' dir pre suf
      | None =>
          modify (set_files (<[file := []]> (files w)));;
          emit (EvFileCreate file);;
          mret file
      end
  end.

(** [tempfile.NamedTemporaryFile(delete=False, suffix=suf)]: a new, empty
    file in the temporary directory; the result stands for the open file
    object and is its [.name]. *)
Definition NamedTemporaryFile (suf : string) : M string :=
  w ← get_world;
  mkstemp_inner TMP_MAX (tempdir w) "tmp" suf.

(** [f.write(data)] on a file opened for writing: the bytes go to the end
    of the file. *)
Definition file_write (path : string) (data : list byte) : M unit :=
  emit (EvFileWrite path data);;
  w ← get_world;
  modify (set_files (<[path := default [] (files w !! path) ++ data]> (files w))).

(** Leaving the [with] block closes the file; with [delete=False] it stays
    on disk. *)
Definition file_close (path : string) : M unit :=
  emit (EvFileClose path).

(** [time.sleep(seconds)], in milliseconds. *)
Definition time_sleep (milliseconds : Z) : M unit :=
  emit (EvSleep milliseconds).

(** ** The speech notebook *)

Definition api_version : string := "2025-03-01-preview".
Definition model_name : string := "gpt-4o-mini-tts".

Definition VOICES : list string :=
  [ "alloy"; "ash"; "ballad"; "coral"; "echo"; "fable"; "onyx"; "nova"; "sage";
    "shimmer"; "verse" ].

Definition gpt4ominitts (instructions text voice : string) : M string :=
  endpoint ← os_getenv "endpoint";
  key ← os_getenv "key";
  client ← AzureOpenAI endpoint key api_version;
  response ← audio_speech_create client
    {| sp_model := model_name;
       sp_voice := voice;
       sp_input := text;
       sp_instructions := instructions;
       sp_response_format := "wav" |};
  temp_audio ← NamedTemporaryFile ".wav";
  file_write temp_audio response;;
  let tempfilename := temp_audio in
  file_close temp_audio;;
  time_sleep 500;;
  mret tempfilename.

(** ** Python values and the [json] decoder *)

(** A JSON document as the decoder scans it: an object is the list of its
    members in document order, duplicates included. *)
Inductive json : Type :=
| JNull
| JBool (b : bool)
| JInt (z : Z)
| JFloat (lexeme : string)
| JString (s : string)
| JArray (items : list json)
| JObject (members : list (string * json)).

(** The Python values [json.loads] returns.  A [str] is its UTF-8 bytes; a
    [float] is kept as the lexeme it was read from. *)
Inductive pyvalue : Type :=
| PNone
| PBool (b : bool)
| PInt (z : Z)
| PFloat (lexeme : string)
| PStr (s : string)
| PList (items : list pyvalue)
| PDict (d : gmap string pyvalue).

(** [dict(pairs)]: a later pair with the same key replaces the earlier
    value. *)
Definition dict {V : Type} (pairs : list (string * V)) : gmap string V :=
  foldl (λ d kv, <[kv.1 := kv.2]> d) ∅ pairs.

Fixpoint to_py (j : json) : pyvalue :=
  match j with
  | JNull => PNone
  | JBool b => PBool b
  | JInt z => PInt z
  | JFloat x => PFloat x
  | JString s => PStr s
  | JArray items => PList (map to_py items)
  | JObject members => PDict (dict (map (λ kv, (kv.1, to_py kv.2)) members))
  end.

Module Json.

Definition dquote : ascii := "034"%char.
Definition backslash : ascii := "\"%char.

Definition is_ws (c : ascii) : bool :=
  (c =? " ")%char || (c =? "009")%char || (c =? "010")%char || (c =? "013")%char.

Fixpoint skip_ws (s : string) : string :=
  match s with
  | String c rest => if is_ws c then skip_ws rest else s
  | EmptyString => s
  end.

(** The input after its first character, when that character is [c]. *)
Definition next_is (c : ascii) (s : string) : option string :=
  match s with
  | String a rest => if (a =? c)%char then Some rest else None
  | EmptyString => None
  end.

Definition is_digit (c : ascii) : bool :=
  (48 <=? N_of_ascii c)%N && (N_of_ascii c <=? 57)%N.

Definition hex_value (c : ascii) : option N :=
  let n := N_of_ascii c in
  if (48 <=? n)%N && (n <=? 57)%N then Some (n - 48)%N
  else if (65 <=? n)%N && (n <=? 70)%N then Some (n - 55)%N
  else if (97 <=? n)%N && (n <=? 102)%N then Some (n - 87)%N
  else None.

(** Four hexadecimal digits of a [\uXXXX] escape. *)
Definition decode_uXXXX (h1 h2 h3 h4 : ascii) : option N :=
  a ← hex_value h1; b ← hex_value h2; c ← hex_value h3; d ← hex_value h4;
  Some (a * 4096 + b * 256 + c * 16 + d)%N.

Definition cont_byte (n : N) : ascii := ascii_of_N (128 + N.land n 63).

(** [chr(uni)] in the UTF-8 representation of [str]. *)
Definition chr (uni : N) : string :=
  if (uni <? 128)%N then String (ascii_of_N uni) ""
  else if (uni <? 2048)%N then
    String (ascii_of_N (192 + N.shiftr uni 6)) (String (cont_byte uni) "")
  else if (uni <? 65536)%N then
    String (ascii_of_N (224 + N.shiftr uni 12))
      (String (cont_byte (N.shiftr uni 6)) (String (cont_byte uni) ""))
  else
    String (ascii_of_N (240 + N.shiftr uni 18))
      (String (cont_byte (N.shiftr uni 12))
         (String (cont_byte (N.shiftr uni 6)) (String (cont_byte uni) ""))).

Definition is_high_surrogate (uni : N) : bool :=
  (55296 <=? uni)%N && (uni <=? 56319)%N.
Definition is_low_surrogate (uni : N) : bool :=
  (56320 <=? uni)%N && (uni <=? 57343)%N.

(** The single-character escapes of [BACKSLASH]. *)
Definition simple_escape (c : ascii) : option ascii :=
  if (c =? dquote)%char then Some dquote
  else if (c =? backslash)%char then Some backslash
  else if (c =? "/")%char then Some "/"%char
  else if (c =? "b")%char then Some "008"%char
  else if (c =? "f")%char then Some "012"%char
  else if (c =? "n")%char then Some "010"%char
  else if (c =? "r")%char then Some "013"%char
  else if (c =? "t")%char then Some "009"%char
  else None.

(** [scanstring] in strict mode, entered after the opening quote: the
    decoded string and the input after the closing quote. *)
Fixpoint scanstring (s : string) : option (string * string) :=
  match s with
  | EmptyString => None
  | String c rest =>
      if (c =? dquote)%char then Some ("", rest)
      else if (c =? backslash)%char then
        match rest with
        | EmptyString => None
        | String esc rest1 =>
            if (esc =? "u")%char then
              match rest1 with
              | String h1 (String h2 (String h3 (String h4 rest2))) =>
                  uni ← decode_uXXXX h1 h2 h3 h4;
                  let single :=
                    '(tail, after) ← scanstring rest2; Some (chr uni +:+ tail, after) in
                  match rest2 with
                  | String b (String u (String l1 (String l2 (String l3 (String l4 rest3))))) =>
                      match (if (b =? backslash)%char && (u =? "u")%char
                                && is_high_surrogate uni
                             then decode_uXXXX l1 l2 l3 l4 else None) with
                      | Some uni2 =>
                          if is_low_surrogate uni2 then
                            let full :=
                              (65536 + N.lor (N.shiftl (uni - 55296) 10) (uni2 - 56320))%N in
                            '(tail, after) ← scanstring rest3;
                            Some (chr full +:+ tail, after)
                          else single
                      | None => single
                      end
                  | _ => single
                  end
              | _ => None
              end
            else
              ch ← simple_escape esc;
              '(tail, after) ← scanstring rest1; Some (String ch tail, after)
        end
      else if (N_of_ascii c <? 32)%N then None
      else '(tail, after) ← scanstring rest; Some (String c tail, after)
  end.

Fixpoint take_digits (s : string) : string * string :=
  match s with
  | String c rest =>
      if is_digit c then let '(ds, after) := take_digits rest in (String c ds, after)
      else ("", s)
  | EmptyString => ("", "")
  end.

Definition digits_value (ds : string) : Z :=
  foldl (λ acc c, acc * 10 + (Z.of_N (N_of_ascii c) - 48))%Z 0%Z (list_ascii_of_string ds).

(** The integer part of [NUMBER_RE]: [0] or a non-zero digit followed by
    digits. *)
Definition match_integer (s : string) : option (string * string) :=
  match s with
  | String c rest =>
      if (c =? "0")%char then Some ("0", rest)
      else if is_digit c then
        let '(ds, after) := take_digits rest in Some (String c ds, after)
      else None
  | EmptyString => None
  end.

(** The optional fraction of [NUMBER_RE]: a dot and at least one digit. *)
Definition match_frac (s : string) : string * string :=
  match next_is "." s with
  | Some rest =>
      match take_digits rest with
      | (EmptyString, _) => ("", s)
      | (ds, after) => (String "." ds, after)
      end
  | None => ("", s)
  end.

(** The optional exponent of [NUMBER_RE]. *)
Definition match_exp (s : string) : string * string :=
  match s with
  | String e rest =>
      if (e =? "e")%char || (e =? "E")%char then
        let '(sign, rest1) :=
          match rest with
          | String g rest1 =>
              if (g =? "-")%char || (g =? "+")%char then (String g "", rest1)
              else ("", rest)
          | EmptyString => ("", rest)
          end in
        match take_digits rest1 with
        | (EmptyString, _) => ("", s)
        | (ds, after) => (String e (sign +:+ ds), after)
        end
      else ("", s)
  | EmptyString => ("", s)
  end.

(** [NUMBER_RE.match] and the conversion of its groups. *)
Definition match_number (s : string) : option (json * string) :=
  let '(neg, s1) :=
    match next_is "-" s with
    | Some rest => (true, rest)
    | None => (false, s)
    end in
  '(int, s2) ← match_integer s1;
  let '(frac, s3) := match_frac s2 in
  let '(exp, s4) := match_exp s3 in
  match frac, exp with
  | EmptyString, EmptyString =>
      Some (JInt (if neg then - digits_value int else digits_value int)%Z, s4)
  | _, _ => Some (JFloat ((if neg then "-" else "") +:+ int +:+ frac +:+ exp), s4)
  end.

Fixpoint strip_prefix (p s : string) : option string :=
  match p, s with
  | EmptyString, _ => Some s
  | String a p', String b s' => if (a =? b)%char then strip_prefix p' s' else None
  | String _ _, EmptyString => None
  end.

(** The loop of [JSONArray], entered where a value is expected. *)
Fixpoint array_items (scan : string → option (json * string)) (fuel : nat)
    (s : string) (values : list json) : option (json * string) :=
  match fuel with
  | O => None
  | S fuel' =>
      '(value, s1) ← scan s;
      let values := values ++ [value] in
      match next_is "]" (skip_ws s1), next_is "," (skip_ws s1) with
      | Some s2, _ => Some (JArray values, s2)
      | None, Some s2 => array_items scan fuel' (skip_ws s2) values
      | None, None => None
      end
  end.

(** The loop of [JSONObject], entered after the opening quote of a
    property name. *)
Fixpoint object_members (scan : string → option (json * string)) (fuel : nat)
    (s : string) (pairs : list (string * json)) : option (json * string) :=
  match fuel with
  | O => None
  | S fuel' =>
      '(key, s1) ← scanstring s;
      s2 ← next_is ":" (skip_ws s1);
      '(value, s3) ← scan (skip_ws s2);
      let pairs := pairs ++ [(key, value)] in
      match next_is "}" (skip_ws s3), next_is "," (skip_ws s3) with
      | Some s4, _ => Some (JObject pairs, s4)
      | None, Some s4 =>
          s5 ← next_is dquote (skip_ws s4);
          object_members scan fuel' s5 pairs
      | None, None => None
      end
  end.

(** [scan_once]: one JSON value at the head of the input. *)
Fixpoint scan_once (fuel : nat) (s : string) : option (json * string) :=
  match fuel with
  | O => None
  | S fuel' =>
      match s with
      | EmptyString => None
      | String c rest =>
          if (c =? dquote)%char then
            '(str, after) ← scanstring rest; Some (JString str, after)
          else if (c =? "{")%char then
            match next_is "}" (skip_ws rest), next_is dquote (skip_ws rest) with
            | Some after, _ => Some (JObject [], after)
            | None, Some after => object_members (scan_once fuel') fuel' after []
            | None, None => None
            end
          else if (c =? "[")%char then
            match next_is "]" (skip_ws rest) with
            | Some after => Some (JArray [], after)
            | None => array_items (scan_once fuel') fuel' (skip_ws rest) []
            end
          else
            match strip_prefix "null" s, strip_prefix "true" s, strip_prefix "false" s with
            | Some after, _, _ => Some (JNull, after)
            | _, Some after, _ => Some (JBool true, after)
            | _, _, Some after => Some (JBool false, after)
            | None, None, None =>
                match match_number s with
                | Some r => Some r
                | None =>
                    match strip_prefix "NaN" s, strip_prefix "Infinity" s,
                          strip_prefix "-Infinity" s with
                    | Some after, _, _ => Some (JFloat "NaN", after)
                    | _, Some after, _ => Some (JFloat "Infinity", after)
                    | _, _, Some after => Some (JFloat "-Infinity", after)
                    | None, None, None => None
                    end
                end
            end
      end
  end.

(** [JSONDecoder.decode]: leading white space, one value, trailing white
    space, end of input. *)
Definition decode (s : string) : option json :=
  '(value, after) ← scan_once (S (String.length s)) (skip_ws s);
  match skip_ws after with
  | EmptyString => Some value
  | String _ _ => None
  end.

End Json.

(** [json.loads(s)] for a [str] argument. *)
Definition json_loads (s : string) : exn + pyvalue :=
  match Json.decode s with
  | Some doc => inr (to_py doc)
  | None => inl JSONDecodeError
  end.

(** Writing aid for JSON texts in examples: every apostrophe stands for a
    double quote. *)
Fixpoint dq (s : string) : string :=
  match s with
  | String c rest => String (if (c =? "'")%char then Json.dquote else c) (dq rest)
  | EmptyString => EmptyString
  end.

(** ** Expressions that can raise, without touching the world *)

Definition Py (A : Type) : Type := (exn + A)%type.

#[global] Instance Py_ret : MRet Py := λ A (x : A), inr x.

#[global] Instance Py_bind : MBind Py := λ A B (f : A → Py B) (m : Py A),
  match m with
  | inl e => inl e
  | inr x => f x
  end.

(** Run a pure expression inside notebook code. *)
Definition lift {A : Type} (m : Py A) : M A := λ w, (m, w).

(** [xs[i]] on a list, for a non-negative literal index. *)
Definition list_getitem {A : Type} (xs : list A) (i : nat) : Py A :=
  match xs !! i with
  | Some x => inr x
  | None => inl IndexError
  end.

(** [xs[i]] where [xs] may be [None]. *)
Definition optional_list_getitem {A : Type} (xs : option (list A)) (i : nat) : Py A :=
  match xs with
  | Some l => list_getitem l i
  | None => inl TypeError
  end.

(** [v[key]] for a string key: only a [dict] can be indexed that way. *)
Definition getitem (v : pyvalue) (key : string) : Py pyvalue :=
  match v with
  | PDict d =>
      match d !! key with
      | Some x => inr x
      | None => inl (KeyError key)
      end
  | _ => inl TypeError
  end.

(** ** The form of the speech notebook *)

Definition instructions : string := "
Tone: Inspirational, determined, and unifying, conveying a deep commitment to shared values and collective progress.

Delivery: Measured and deliberate, with intentional pacing to allow key messages to resonate and reinforce a sense of gravity.

Emotion: Passionate, sincere, and empathetic, appealing to both reason and the heart to build trust and rally support.

Punctuation: Purposeful, strong sentence structure—utilizing pauses, rhetorical repetition, and emphatic phrasing to drive momentum and clarity.

Pronunciation: Clear and deliberate enunciation, especially on policy points and names, to project authority and reinforce message precision.

Personality Affect: Statesmanlike and relatable—balancing gravitas with warmth, conveying both leadership and a genuine connection to the people.
".

Definition text : string := "
ARTICLE PREMIER.
La France est une République indivisible, laïque, démocratique et sociale. Elle assure l'égalité devant la loi de tous les citoyens sans distinction d'origine, de race ou de religion. Elle respecte toutes les croyances. Son organisation est décentralisée.

La loi favorise l'égal accès des femmes et des hommes aux mandats électoraux et fonctions électives, ainsi qu'aux responsabilités professionnelles et sociales.
".

(** [gr.Dropdown(choices, value=...)] without custom values: a single
    selection among the listed choices. *)
Record Dropdown : Type := {
  dd_choices : list string;
  dd_value : string
}.

(** The components of [webapp] that carry a value. *)
Record Form : Type := {
  instructions_box : string;
  input_box : string;
  voice_picker : Dropdown;
  output_audio : option string;
  (** the exception the last click ended with, shown by the form *)
  form_error : option exn
}.

Definition webapp : Form :=
  {| instructions_box := instructions;
     input_box := text;
     voice_picker := {| dd_choices := VOICES; dd_value := "ash" |};
     output_audio := None;
     form_error := None |}.

(** What a visitor of the form can do. *)
Inductive UserAction : Type :=
| EditInstructions (s : string)
| EditText (s : string)
| SelectVoice (option_index : nat)
| ClickPlay.

(** Choosing the [i]-th entry of the dropdown's list. *)
Definition dd_select (i : nat) (d : Dropdown) : Dropdown :=
  match dd_choices d !! i with
  | Some v => {| dd_choices := dd_choices d; dd_value := v |}
  | None => d
  end.

(** [play_button.click(fn=gpt4ominitts, inputs=[instructions_box, input_box,
    voice_picker], outputs=[output_audio])]: the handler runs on the current
    values; the form survives an exception of the handler. *)
Definition play_button_click (f : Form) : World → Form * World :=
  λ w,
    match gpt4ominitts (instructions_box f) (input_box f) (dd_value (voice_picker f)) w with
    | (inr path, w') =>
        ({| instructions_box := instructions_box f; input_box := input_box f;
            voice_picker := voice_picker f; output_audio := Some path;
            form_error := None |}, w')
    | (inl e, w') =>
        ({| instructions_box := instructions_box f; input_box := input_box f;
            voice_picker := voice_picker f; output_audio := output_audio f;
            form_error := Some e |}, w')
    end.

Definition ui_step (a : UserAction) (f : Form) : World → Form * World :=
  match a with
  | EditInstructions s =>
      λ w, ({| instructions_box := s; input_box := input_box f;
               voice_picker := voice_picker f; output_audio := output_audio f;
               form_error := form_error f |}, w)
  | EditText s =>
      λ w, ({| instructions_box := instructions_box f; input_box := s;
               voice_picker := voice_picker f; output_audio := output_audio f;
               form_error := form_error f |}, w)
  | SelectVoice i =>
      λ w, ({| instructions_box := instructions_box f; input_box := input_box f;
               voice_picker := dd_select i (voice_picker f);
               output_audio := output_audio f; form_error := form_error f |}, w)
  | ClickPlay => play_button_click f
  end.

Fixpoint ui_run (actions : list UserAction) (f : Form) (w : World) : Form * World :=
  match actions with
  | [] => (f, w)
  | a :: rest => let '(f', w') := ui_step a f w in ui_run rest f' w'
  end.

(** The cells of the speech notebook that run before the form is served:
    only [load_dotenv] has an effect; the other cells bind constants, define
    [gpt4ominitts] and build [webapp]. *)
Definition tts_startup : M Form :=
  load_dotenv "azure.env";;
  mret webapp.

(** The speech notebook: start-up, then the visitor's actions. *)
Definition tts_notebook (actions : list UserAction) (w : World)
  : (exn + Form) * World :=
  match tts_startup w with
  | (inr f, w') => let '(f', w'') := ui_run actions f w' in (inr f', w'')
  | (inl e, w') => (inl e, w')
  end.

(** ** The structured-outputs notebook *)

Definition MODEL : string := "gpt-4o-2024-08-06".
Definition API_VERSION : string := "2024-08-01-preview".

(** The module-level names the start-up cells bind. *)
Record Globals : Type := {
  AZURE_OPENAI_ENDPOINT : option string;
  AZURE_OPENAI_API_KEY : option string;
  client : Client
}.

(** Evaluating the name [os].  This notebook has no [import os]; the name
    resolves only when the session already binds it. *)
Definition name_os : M unit :=
  w ← get_world;
  if os_bound w then mret tt else raise (NameError "os").

(** Cells 4 to 6: load the dotenv file, read endpoint and key into
    globals, construct the one client. *)
Definition startup : M Globals :=
  load_dotenv "azure.env";;
  name_os;;
  endpoint ← os_getenv "AZURE_OPENAI_API_ENDPOINT";
  name_os;;
  key ← os_getenv "AZURE_OPENAI_API_KEY";
  c ← AzureOpenAI endpoint key API_VERSION;
  mret {| AZURE_OPENAI_ENDPOINT := endpoint;
          AZURE_OPENAI_API_KEY := key;
          client := c |}.

(** [client.chat.completions.create(model=..., messages=..., tools=...)]:
    one request; the service answers with a completion or the SDK raises. *)
Definition chat_completions_create (c : Client) (r : ChatRequest)
  : M ChatCompletion :=
  w ← get_world;
  emit (EvChatCreate c r);;
  match chat_service w (trace w) c r with
  | inl e => raise e
  | inr response => mret response
  end.

(** The request cell of an example: [tools] holds the one tool built from
    the example's model. *)
Definition request_cell (g : Globals) (model : Schema) (messages : list Message)
  : M ChatCompletion :=
  let tools := [pydantic_function_tool model] in
  chat_completions_create (client g)
    {| ch_model := MODEL; ch_messages := messages; ch_tools := tools |}.

(** [response.choices[0].message.tool_calls[0].function] *)
Definition first_function (response : ChatCompletion) : Py Function :=
  choice ← list_getitem (choices response) 0;
  call ← optional_list_getitem (tool_calls (message choice)) 0;
  mret (tc_function call).

(** [json.loads(response.choices[0].message.tool_calls[0].function.arguments)] *)
Definition loads_cell (response : ChatCompletion) : Py pyvalue :=
  f ← first_function response;
  json_loads (fn_arguments f).

(** The extraction flow shared by the examples: the request cell followed
    by the [json.loads] line; the value is what the notebook binds to
    [results]. *)
Definition extraction (g : Globals) (model : Schema) (messages : list Message)
  : M pyvalue :=
  response ← request_cell g model messages;
  lift (loads_cell response).

(** The three [print(f"...{results[key]}")] lines after [json.loads]: the
    values looked up, in order. *)
Fixpoint print_fields (results : pyvalue) (keys : list string) : Py (list pyvalue) :=
  match keys with
  | [] => mret []
  | key :: rest =>
      v ← getitem results key;
      vs ← print_fields results rest;
      mret (v :: vs)
  end.

Definition system_message : Message :=
  {| role := "system"; content := "You are an AI helpful assistant." |}.

(** Example 1 *)
Definition GetInformations : Schema :=
  {| schema_name := "GetInformations";
     schema_fields :=
       [ ("weather_location", TStr); ("country_location", TStr);
         ("country_language", TStr) ] |}.

Definition messages1 : list Message :=
  [ system_message;
    {| role := "user";
       content := "Hello, what is the current weather for the capital of France?" |} ].

(** The cells of Example 1 in order: the request; the two cells that print
    the function and its arguments; the [json.loads] cell with its three
    printed fields.  The value is [results] and what was printed from it. *)
Definition example1 (g : Globals) : M (pyvalue * list pyvalue) :=
  response ← request_cell g GetInformations messages1;
  lift (first_function response);;
  lift (f ← first_function response; mret (fn_arguments f));;
  results ← lift (loads_cell response);
  printed ← lift (print_fields results
                    ["weather_location"; "country_location"; "country_language"]);
  mret (results, printed).

(** Example 2 *)
Definition ProductSupport : Schema :=
  {| schema_name := "ProductSupport";
     schema_fields := [ ("product", TStr); ("brand", TStr); ("issue", TStr) ] |}.

Definition messages2 : list Message :=
  [ system_message;
    {| role := "user";
       content := "My Contoso headphones are not working anymore. No sound on the left." |} ].

(** The cells of Example 2: the request, the cell that prints the
    arguments, the [json.loads] cell. *)
Definition example2 (g : Globals) : M (pyvalue * list pyvalue) :=
  response ← request_cell g ProductSupport messages2;
  lift (f ← first_function response; mret (fn_arguments f));;
  results ← lift (loads_cell response);
  printed ← lift (print_fields results ["product"; "brand"; "issue"]);
  mret (results, printed).

(** Example 3 *)
Definition CallCenter : Schema :=
  {| schema_name := "CallCenter";
     schema_fields :=
       [ ("travel_type", TStr); ("from_city", TStr); ("to_city", TStr);
         ("travel_class", TStr); ("travel_date", TStr); ("from_country", TStr);
         ("to_country", TStr); ("airplane_company", TStr) ] |}.

Definition messages3 : list Message :=
  [ system_message;
    {| role := "user";
       content := "Hi, I need to purchase an Air France flight ticket from Paris to Seattle for Tuesday. I want a first class ticket." |} ].

(** The cells of Example 3: the request and the cell that prints the
    arguments; this example does not decode them. *)
Definition example3 (g : Globals) : M string :=
  response ← request_cell g CallCenter messages3;
  lift (f ← first_function response; mret (fn_arguments f)).

(** ** What the service promises about a tool call's arguments *)

(** A JSON value has the declared type of a field. *)
Definition has_type (v : json) (t : FieldType) : bool :=
  match t, v with
  | TStr, JString _ => true
  | TInt, JInt _ => true
  | TNumber, JInt _ => true
  | TNumber, JFloat _ => true
  | TBool, JBool _ => true
  | TEnum values, JString s => bool_decide (s ∈ values)
  | _, _ => false
  end.

(** A member list validates against the tool's parameters: every member
    is a declared property of the declared type (no additional property),
    and every required name occurs. *)
Definition members_conform (t : Tool) (members : list (string * json)) : bool :=
  forallb (λ kv,
             match list_find (λ p, p.1 = kv.1) (tool_properties t) with
             | Some (_, (_, ty)) => has_type kv.2 ty
             | None => tool_additional_properties t
             end) members
  && forallb (λ name, bool_decide (name ∈ map fst members)) (tool_required t).

(** The argument text is valid JSON and validates against the tool. *)
Definition conforming (t : Tool) (arguments : string) : Prop :=
  ∃ members, Json.decode arguments = Some (JObject members)
             ∧ members_conform t members = true.

(** ** Observations on a trace *)

(** The synthesis requests of a trace, oldest first, each with the client
    that sent it. *)
Definition speech_requests (t : list Event) : list (Client * SpeechRequest) :=
  omap (λ e, match e with EvSpeechCreate c r => Some (c, r) | _ => None end) t.

(** The chat-completion requests of a trace. *)
Definition chat_requests (t : list Event) : list (Client * ChatRequest) :=
  omap (λ e, match e with EvChatCreate c r => Some (c, r) | _ => None end) t.

(** How many requests a trace holds. *)
Definition network_calls (t : list Event) : nat :=
  length (speech_requests t) + length (chat_requests t).

(** The names looked up with [os.getenv], in order. *)
Definition env_reads (t : list Event) : list string :=
  omap (λ e, match e with EvGetenv name => Some name | _ => None end) t.

(** What was done to files. *)
Definition file_events (t : list Event) : list Event :=
  omap (λ e, match e with
             | EvFileCreate _ | EvFileWrite _ _ | EvFileClose _ => Some e
             | _ => None
             end) t.

(** ** Abbreviations used in the statements *)

(** The request [gpt4ominitts] sends for its three arguments. *)
Definition speech_request (instructions text voice : string) : SpeechRequest :=
  {| sp_model := model_name; sp_voice := voice; sp_input := text;
     sp_instructions := instructions; sp_response_format := "wav" |}.

(** The [k]-th name [NamedTemporaryFile] would try next. *)
Definition candidate (dir pre suf : string) (w : World) (k : nat) : string :=
  dir +:+ "/" +:+ pre +:+ rand_names w (rand_pos w + k) +:+ suf.

(** Everything but the files, the drawn names and the trace is the same. *)
Definition same_surroundings (w w' : World) : Prop :=
  environ w' = environ w ∧ dotenv_files w' = dotenv_files w
  ∧ os_bound w' = os_bound w ∧ tempdir w' = tempdir w
  ∧ rand_names w' = rand_names w
  ∧ speech_service w' = speech_service w ∧ chat_service w' = chat_service w.

(** The world after the [with] block and the pause of [gpt4ominitts]. *)
Definition written (path : string) (audio : list byte) (w : World) : World :=
  log (EvSleep 500)
    (log (EvFileClose path)
       (set_files (<[path := default [] (files w !! path) ++ audio]> (files w))
          (log (EvFileWrite path audio) w))).

(** Some name among the next [TMP_MAX] draws is free. *)
Definition tmp_available (suf : string) (w : World) : Prop :=
  ∃ k, k < TMP_MAX ∧ files w !! candidate (tempdir w) "tmp" suf w k = None.

(** The client [gpt4ominitts] would construct in a world. *)
Definition tts_client (w : World) : exn + Client :=
  AzureOpenAI_init (environ w) (environ w !! "endpoint") (environ w !! "key")
    api_version.


(** The request an example sends for its model and messages. *)
Definition chat_request (model : Schema) (messages : list Message) : ChatRequest :=
  {| ch_model := MODEL; ch_messages := messages;
     ch_tools := [pydantic_function_tool model] |}.

(** [os.environ] once [load_dotenv(path)] has run. *)
Definition environ_with_dotenv (path : string) (w : World) : gmap string string :=
  match dotenv_files w !! path with
  | Some bindings => environ w ∪ bindings
  | None => environ w
  end.

(** No endpoint: neither the variable the notebook reads nor the one the
    constructor falls back to is set. *)
Definition endpoint_absent (env : gmap string string) (name : string) : Prop :=
  env !! name = None ∧ env !! "AZURE_OPENAI_ENDPOINT" = None.

(** No credential: neither the variable the notebook reads nor one of the
    constructor's own is set. *)
Definition key_absent (env : gmap string string) (name : string) : Prop :=
  env !! name = None ∧ env !! "AZURE_OPENAI_API_KEY" = None
  ∧ env !! "AZURE_OPENAI_AD_TOKEN" = None.

(** ** Concrete worlds for the examples *)

Definition demo_env : gmap string string :=
  {[ "endpoint" := "https://demo.openai.azure.com/";
     "key" := "demo-key";
     "AZURE_OPENAI_API_ENDPOINT" := "https://demo.openai.azure.com/";
     "AZURE_OPENAI_API_KEY" := "demo-key" ]}.

(** The first bytes of a WAV container. *)
Definition demo_audio : list byte := [x52; x49; x46; x46].

(** The completion recorded in the notebook for Example 1. *)
Definition recorded_response1 : ChatCompletion :=
  {| cc_id := "chatcmpl-A4OfdQw8pj2NiO8jMnp3qTglw2b7D";
     choices :=
       [ {| finish_reason := "tool_calls";
            index := 0;
            message :=
              {| msg_content := None;
                 msg_refusal := None;
                 msg_role := "assistant";
                 tool_calls :=
                   Some [ {| tc_id := "call_GRryPcMz0VNyPxjWOc2lwtyU";
                             tc_function :=
                               {| fn_arguments :=
                                    dq "{'weather_location':'Paris','country_location':'France','country_language':'French'}";
                                  fn_name := "GetInformations" |};
                             tc_type := "function" |} ] |} |} ];
     cc_model := "gpt-4o-2024-08-06" |}.

(** A completion in which the model answers in prose: no tool call. *)
Definition free_text_response (calls : option (list ToolCall)) : ChatCompletion :=
  {| cc_id := "chatcmpl-free-text";
     choices :=
       [ {| finish_reason := "stop";
            index := 0;
            message :=
              {| msg_content := Some "I cannot look up the current weather.";
                 msg_refusal := None;
                 msg_role := "assistant";
                 tool_calls := calls |} |} ];
     cc_model := "gpt-4o-2024-08-06" |}.

(** A fresh process: nothing done yet, no file on disk, temporary names
    [tmp0.wav], [tmp1.wav], ... under [/tmp]. *)
Definition fresh_world (env : gmap string string)
    (dotenv : gmap string (gmap string string))
    (speech : exn + list byte) (chat : exn + ChatCompletion) : World :=
  {| environ := env; dotenv_files := dotenv; os_bound := true;
     files := ∅; tempdir := "/tmp";
     rand_names := λ n, pretty n; rand_pos := 0;
     speech_service := λ _ _ _, speech;
     chat_service := λ _ _ _, chat;
     trace := [] |}.

(** Configuration present; both services answer. *)
Definition demo_world : World :=
  fresh_world demo_env ∅ (inr demo_audio) (inr recorded_response1).

(** Configuration only in the dotenv file. *)
Definition dotenv_world : World :=
  fresh_world ∅ {[ "azure.env" := demo_env ]} (inr demo_audio) (inr recorded_response1).

(** No configuration anywhere. *)
Definition bare_world : World :=
  fresh_world ∅ ∅ (inr demo_audio) (inr recorded_response1).

(** The speech endpoint answers with a zero-length body. *)
Definition silent_world : World :=
  fresh_world demo_env ∅ (inr []) (inr recorded_response1).

(** The client both demo notebooks build from [demo_env]. *)
Definition demo_client (version : string) : Client :=
  {| azure_endpoint := "https://demo.openai.azure.com/";
     api_key := Some "demo-key";
     azure_ad_token := None;
     client_api_version := version |}.

(** The globals the start-up cells bind in [demo_world]. *)
Definition demo_globals : Globals :=
  {| AZURE_OPENAI_ENDPOINT := Some "https://demo.openai.azure.com/";
     AZURE_OPENAI_API_KEY := Some "demo-key";
     client := demo_client API_VERSION |}.

(** The model answers in prose; [calls] is what the SDK puts in
    [tool_calls]. *)
Definition free_text_world (calls : option (list ToolCall)) : World :=
  fresh_world demo_env ∅ (inr demo_audio) (inr (free_text_response calls)).

(** ** Further abbreviations *)

(** How often the button is clicked in a list of actions. *)
Definition clicks (actions : list UserAction) : nat :=
  length (List.filter (λ a, match a with ClickPlay => true | _ => false end) actions).

(** What the player shows is on disk. *)
Definition output_on_disk (f : Form) (w : World) : Prop :=
  ∀ path, output_audio f = Some path → is_Some (files w !! path).

(** The value a variable has once [load_dotenv(path)] has run: the one of
    the process environment if it is set there, else the one of the file. *)
Definition configured (path name : string) (w : World) : option string :=
  match environ w !! name with
  | Some v => Some v
  | None => bindings ← dotenv_files w !! path; bindings !! name
  end.

(** [dotenv_world] in a session that does not bind the name [os]. *)
Definition unbound_world : World :=
  {| environ := environ dotenv_world; dotenv_files := dotenv_files dotenv_world;
     os_bound := false;
     files := files dotenv_world; tempdir := tempdir dotenv_world;
     rand_names := rand_names dotenv_world; rand_pos := rand_pos dotenv_world;
     speech_service := speech_service dotenv_world;
     chat_service := chat_service dotenv_world;
     trace := trace dotenv_world |}.

(** * Properties *)

(** ** The monad and the library calls *)

(** Running a bind: the exception of the first part ends the run. *)
Lemma bind_run {A B} (m : M A) (f : A → M B) w :
  (m ≫= f) w = match m w with (inl e, w') => (inl e, w') | (inr x, w') => f x w' end.
Proof. reflexivity. Qed.

(** The name tried first. *)
Lemma candidate_0 dir pre suf w :
  candidate dir pre suf w 0 = dir +:+ "/" +:+ pre +:+ rand_names w (rand_pos w) +:+ suf.
Proof. unfold candidate. by rewrite Nat.add_0_r. Qed.

(** After one draw the candidates shift by one. *)
Lemma candidate_draw dir pre suf w k :
  candidate dir pre suf (draw_name w) k = candidate dir pre suf w (S k).
Proof. unfold candidate. cbn. by rewrite Nat.add_succ_r. Qed.

(** A successful creation: the name was free, the new file is empty, and
    nothing else on disk changed. *)
Lemma mkstemp_inner_ok tries dir pre suf w file w' :
  mkstemp_inner tries dir pre suf w = (inr file, w') →
  (∃ k, k < tries ∧ file = candidate dir pre suf w k)
  ∧ files w !! file = None
  ∧ files w' = <[file := []]> (files w)
  ∧ trace w' = trace w ++ [EvFileCreate file]
  ∧ same_surroundings w w'.
Proof.
  revert w. induction tries as [|n IH]; intros w; [discriminate|].
  cbn [mkstemp_inner]. rewrite bind_run. cbn [get_world].
  rewrite bind_run. cbn [modify]. rewrite <- candidate_0.
  destruct (files w !! candidate dir pre suf w 0) as [old|] eqn:Hfree.
  - intros Hrun. apply IH in Hrun as ([k [Hk ->]] & Hnone & Hfiles & Htrace & Hsame).
    split_and!; try done.
    exists (S k). split; [lia|]. apply candidate_draw.
  - intros [= <- <-].
    split_and!; [exists 0; split; [lia|done] | done | done | done
                | by repeat split].
Qed.

(** The only failure: every drawn name exists.  Nothing is created. *)
Lemma mkstemp_inner_error tries dir pre suf w e w' :
  mkstemp_inner tries dir pre suf w = (inl e, w') →
  e = FileExistsError
  ∧ (∀ k, k < tries → is_Some (files w !! candidate dir pre suf w k))
  ∧ files w' = files w ∧ trace w' = trace w ∧ same_surroundings w w'.
Proof.
  revert w. induction tries as [|n IH]; intros w.
  - intros [= <- <-]. split_and!; first [done | lia | by repeat split].
  - cbn [mkstemp_inner]. rewrite bind_run. cbn [get_world].
    rewrite bind_run. cbn [modify]. rewrite <- candidate_0.
    destruct (files w !! candidate dir pre suf w 0) as [old|] eqn:Hfree; [|discriminate].
    intros Hrun. apply IH in Hrun as (-> & Hall & Hfiles & Htrace & Hsame).
    split_and!; try done.
    intros [|k] Hk; [by rewrite Hfree|].
    rewrite <- candidate_draw. apply Hall. lia.
Qed.

(** A free name among the next [tries] draws makes the creation succeed. *)
Lemma mkstemp_inner_available tries dir pre suf w k :
  k < tries → files w !! candidate dir pre suf w k = None →
  ∃ file w', mkstemp_inner tries dir pre suf w = (inr file, w').
Proof.
  intros Hk Hfree.
  destruct (mkstemp_inner tries dir pre suf w) as [[e|file] w'] eqn:Hrun; [|eauto].
  apply mkstemp_inner_error in Hrun as (_ & Hall & _).
  destruct (Hall k Hk) as [? Hsome]. congruence.
Qed.

(** The same two facts for [NamedTemporaryFile]. *)
Lemma NamedTemporaryFile_ok suf w file w' :
  NamedTemporaryFile suf w = (inr file, w') →
  (∃ k, k < TMP_MAX ∧ file = candidate (tempdir w) "tmp" suf w k)
  ∧ files w !! file = None
  ∧ files w' = <[file := []]> (files w)
  ∧ trace w' = trace w ++ [EvFileCreate file]
  ∧ same_surroundings w w'.
Proof. apply mkstemp_inner_ok. Qed.

Lemma NamedTemporaryFile_error suf w e w' :
  NamedTemporaryFile suf w = (inl e, w') →
  e = FileExistsError
  ∧ (∀ k, k < TMP_MAX → is_Some (files w !! candidate (tempdir w) "tmp" suf w k))
  ∧ files w' = files w ∧ trace w' = trace w ∧ same_surroundings w w'.
Proof. apply mkstemp_inner_error. Qed.

Lemma NamedTemporaryFile_available suf w :
  tmp_available suf w → ∃ file w', NamedTemporaryFile suf w = (inr file, w').
Proof. intros (k & Hk & Hfree). by eapply mkstemp_inner_available. Qed.

(** Without an endpoint or without a credential the constructor raises. *)
Lemma AzureOpenAI_init_absent env ep_name key_name version :
  endpoint_absent env ep_name ∨ key_absent env key_name →
  ∃ e, AzureOpenAI_init env (env !! ep_name) (env !! key_name) version = inl e
       ∧ (e = ValueError ∨ e = OpenAIError).
Proof.
  unfold AzureOpenAI_init.
  intros [[-> ->] | (-> & -> & ->)]; cbn.
  - destruct (from_option _ _ _), (env !! "AZURE_OPENAI_AD_TOKEN"); eauto.
  - eauto.
Qed.

(** [load_dotenv] never raises; it merges the bindings of the file, if any. *)
Lemma load_dotenv_run path w :
  load_dotenv path w
  = (inr tt,
     match dotenv_files w !! path with
     | Some bindings => set_environ (environ w ∪ bindings) (log (EvLoadDotenv path) w)
     | None => log (EvLoadDotenv path) w
     end).
Proof.
  cbv [load_dotenv mbind M_bind mret M_ret get_world emit modify]. cbn.
  by destruct (dotenv_files w !! path).
Qed.

(** What [load_dotenv] changes: one trace entry and [os.environ]. *)
Lemma load_dotenv_world path w :
  trace (load_dotenv path w).2 = trace w ++ [EvLoadDotenv path]
  ∧ environ (load_dotenv path w).2 = environ_with_dotenv path w
  ∧ files (load_dotenv path w).2 = files w
  ∧ os_bound (load_dotenv path w).2 = os_bound w.
Proof.
  rewrite load_dotenv_run. unfold environ_with_dotenv.
  by destruct (dotenv_files w !! path).
Qed.

(** ** One call of [gpt4ominitts] *)

(** [gpt4ominitts], step by step. *)
Lemma gpt4ominitts_run i t v w :
  gpt4ominitts i t v w =
  let w1 := log (EvGetenv "key") (log (EvGetenv "endpoint") w) in
  match AzureOpenAI_init (environ w) (environ w !! "endpoint") (environ w !! "key")
          api_version with
  | inl e => (inl e, w1)
  | inr c =>
      let w2 := log (EvSpeechCreate c (speech_request i t v)) w1 in
      match speech_service w (trace w1) c (speech_request i t v) with
      | inl e => (inl e, w2)
      | inr audio =>
          match NamedTemporaryFile ".wav" w2 with
          | (inl e, w3) => (inl e, w3)
          | (inr path, w3) => (inr path, written path audio w3)
          end
      end
  end.
Proof.
  cbv [gpt4ominitts os_getenv AzureOpenAI audio_speech_create file_write
       file_close time_sleep mbind M_bind mret M_ret get_world emit raise modify].
  cbn -[NamedTemporaryFile AzureOpenAI_init].
  fold (speech_request i t v).
  destruct (AzureOpenAI_init _ _ _ _) as [e|c]; [done|].
  cbn -[NamedTemporaryFile].
  destruct (speech_service w _ c _) as [e|audio]; [done|].
  destruct (NamedTemporaryFile ".wav" _) as [[e|path] w3]; done.
Qed.

(** Case analysis along [gpt4ominitts_run]: constructor, service, temporary
    file. *)
Ltac run_cases Hinit Hsvc Htmp :=
  rewrite gpt4ominitts_run; cbn zeta;
  destruct (AzureOpenAI_init _ _ _ _) as [?e|?c] eqn:Hinit;
  [|destruct (speech_service _ _ _ _) as [?e|?audio] eqn:Hsvc;
    [|destruct (NamedTemporaryFile ".wav" _) as [[?e|?path] ?w3] eqn:Htmp]].

(** A call that returns: what was sent, what was written, what changed. *)
Lemma gpt4ominitts_ok i t v w path w' :
  gpt4ominitts i t v w = (inr path, w') →
  ∃ c audio,
    tts_client w = inr c
    ∧ speech_service w (trace w ++ [EvGetenv "endpoint"; EvGetenv "key"]) c
        (speech_request i t v) = inr audio
    ∧ files w !! path = None
    ∧ files w' = <[path := audio]> (files w)
    ∧ trace w' = trace w ++
        [ EvGetenv "endpoint"; EvGetenv "key";
          EvSpeechCreate c (speech_request i t v);
          EvFileCreate path; EvFileWrite path audio; EvFileClose path;
          EvSleep 500 ]
    ∧ same_surroundings w w'.
Proof.
  unfold tts_client. run_cases Hinit Hsvc Htmp; try discriminate.
  intros [= <- <-]. exists c, audio.
  apply NamedTemporaryFile_ok in Htmp as (_ & Hfree & Hfiles & Htrace & Hsame).
  cbn in Hfree, Hfiles, Htrace, Hsvc. rewrite <- !app_assoc in Hsvc. cbn in Hsvc.
  split_and!; try done.
  - cbn. rewrite Hfiles, lookup_insert_eq. cbn. apply insert_insert_eq.
  - cbn. rewrite Htrace. by rewrite <- !app_assoc.
Qed.

(** A call that raises: no file was touched; it stopped at the constructor,
    or after the request. *)
Lemma gpt4ominitts_error i t v w e w' :
  gpt4ominitts i t v w = (inl e, w') →
  files w' = files w
  ∧ same_surroundings w w'
  ∧ ((tts_client w = inl e
      ∧ trace w' = trace w ++ [EvGetenv "endpoint"; EvGetenv "key"])
     ∨ (∃ c, tts_client w = inr c
             ∧ trace w' = trace w ++
                 [ EvGetenv "endpoint"; EvGetenv "key";
                   EvSpeechCreate c (speech_request i t v) ])).
Proof.
  unfold tts_client. run_cases Hinit Hsvc Htmp; try discriminate; intros [= <- <-].
  - split_and!; [done | by repeat split |]. left. split; [done|].
    cbn. by rewrite <- !app_assoc.
  - split_and!; [done | by repeat split |]. right. exists c. split; [done|].
    cbn. by rewrite <- !app_assoc.
  - apply NamedTemporaryFile_error in Htmp as (_ & _ & Hfiles & Htrace & Hsame).
    split_and!; [done | |].
    + destruct Hsame as (?&?&?&?&?&?&?). by repeat split.
    + right. exists c. split; [done|]. rewrite Htrace. cbn. by rewrite <- !app_assoc.
Qed.

(** Every call looks up [endpoint] and [key] again. *)
Lemma gpt4ominitts_env_reads i t v w :
  env_reads (trace (gpt4ominitts i t v w).2)
  = env_reads (trace w) ++ ["endpoint"; "key"].
Proof.
  destruct (gpt4ominitts i t v w) as [[e|path] w'] eqn:Hrun; cbn [snd].
  - apply gpt4ominitts_error in Hrun as (_ & _ & [[_ ->] | (c & _ & ->)]);
      unfold env_reads; by rewrite omap_app.
  - apply gpt4ominitts_ok in Hrun as (c & audio & _ & _ & _ & _ & -> & _).
    unfold env_reads. by rewrite omap_app.
Qed.

(** A call sends one request when the client can be built, none otherwise. *)
Lemma gpt4ominitts_speech_requests i t v w :
  speech_requests (trace (gpt4ominitts i t v w).2)
  = speech_requests (trace w) ++
      match tts_client w with
      | inr c => [(c, speech_request i t v)]
      | inl _ => []
      end.
Proof.
  destruct (gpt4ominitts i t v w) as [[e|path] w'] eqn:Hrun; cbn [snd].
  - apply gpt4ominitts_error in Hrun as (_ & _ & [[-> ->] | (c & -> & ->)]);
      unfold speech_requests; by rewrite omap_app.
  - apply gpt4ominitts_ok in Hrun as (c & audio & -> & _ & _ & _ & -> & _).
    unfold speech_requests. by rewrite omap_app.
Qed.

(** A call sends nothing to the chat endpoint. *)
Lemma gpt4ominitts_chat_requests i t v w :
  chat_requests (trace (gpt4ominitts i t v w).2) = chat_requests (trace w).
Proof.
  destruct (gpt4ominitts i t v w) as [[e|path] w'] eqn:Hrun; cbn [snd].
  - apply gpt4ominitts_error in Hrun as (_ & _ & [[_ ->] | (c & _ & ->)]);
      unfold chat_requests; rewrite omap_app; cbn; by rewrite app_nil_r.
  - apply gpt4ominitts_ok in Hrun as (c & audio & _ & _ & _ & _ & -> & _).
    unfold chat_requests. rewrite omap_app. cbn. by rewrite app_nil_r.
Qed.

(** A call changes files, drawn names and trace only. *)
Lemma gpt4ominitts_same_surroundings i t v w :
  same_surroundings w (gpt4ominitts i t v w).2.
Proof.
  destruct (gpt4ominitts i t v w) as [[e|path] w'] eqn:Hrun; cbn [snd].
  - by apply gpt4ominitts_error in Hrun as (_ & ? & _).
  - by apply gpt4ominitts_ok in Hrun as (c & audio & _ & _ & _ & _ & _ & ?).
Qed.

(** A call leaves every file that already exists as it is. *)
Lemma gpt4ominitts_keeps_files i t v w p data :
  files w !! p = Some data → files (gpt4ominitts i t v w).2 !! p = Some data.
Proof.
  intros Hp. destruct (gpt4ominitts i t v w) as [[e|path] w'] eqn:Hrun; cbn [snd].
  - apply gpt4ominitts_error in Hrun as (Hfiles & _). cbn. by rewrite Hfiles.
  - apply gpt4ominitts_ok in Hrun as (c & audio & _ & _ & Hfree & Hfiles & _).
    cbn. rewrite Hfiles. rewrite lookup_insert_ne; [done|]. congruence.
Qed.

(** With a client, an answer and a free name, the call returns a path. *)
Lemma gpt4ominitts_returns i t v w c audio :
  tts_client w = inr c →
  speech_service w (trace w ++ [EvGetenv "endpoint"; EvGetenv "key"]) c
    (speech_request i t v) = inr audio →
  tmp_available ".wav" w →
  ∃ path, (gpt4ominitts i t v w).1 = inr path.
Proof.
  intros Hc Hsvc Htmp. rewrite gpt4ominitts_run. cbn zeta.
  unfold tts_client in Hc. rewrite Hc. cbn [trace log].
  rewrite <- app_assoc. cbn [app]. rewrite Hsvc.
  destruct (NamedTemporaryFile_available ".wav"
              (log (EvSpeechCreate c (speech_request i t v))
                 (log (EvGetenv "key") (log (EvGetenv "endpoint") w))))
    as (file & w3 & ->); [done|].
  by exists file.
Qed.

(** Decide a closed decidable proposition by evaluation. *)
Ltac by_compute := apply (bool_decide_unpack _); vm_compute; exact I.

(** ** What [gpt4ominitts] does with its arguments and with the response *)




(** C9: [gpt4ominitts] does not validate its text.  For every text, the
    empty string included: when the client can be constructed the request
    is sent with the text as given; when the service answers with audio and
    a temporary name is free the call returns a path; and a call that fails
    before the request fails in the client constructor, on the
    environment alone, whatever the text. *)
Theorem gpt4ominitts_text_unchecked i t v w :
  (∀ c, tts_client w = inr c →
        speech_requests (trace (gpt4ominitts i t v w).2)
        = speech_requests (trace w) ++
            [(c, {| sp_model := model_name; sp_voice := v; sp_input := t;
                    sp_instructions := i; sp_response_format := "wav" |})]
        ∧ ∀ audio,
            speech_service w (trace w ++ [EvGetenv "endpoint"; EvGetenv "key"]) c
              (speech_request i t v) = inr audio →
            tmp_available ".wav" w →
            ∃ path, (gpt4ominitts i t v w).1 = inr path)
  ∧ (∀ e, tts_client w = inl e →
          (gpt4ominitts i t v w).1 = inl e
          ∧ speech_requests (trace (gpt4ominitts i t v w).2)
            = speech_requests (trace w)).
Proof.
  split.
  - intros c Hc. split.
    + rewrite gpt4ominitts_speech_requests. by rewrite Hc.
    + intros audio Hsvc Htmp. by eapply gpt4ominitts_returns.
  - intros e He. split.
    + rewrite gpt4ominitts_run. cbn zeta. unfold tts_client in He. by rewrite He.
    + rewrite gpt4ominitts_speech_requests, He. apply app_nil_r.
Qed.

(** The statement above at the empty text. *)
Lemma gpt4ominitts_text_unchecked_witness :
  tts_client demo_world = inr (demo_client api_version)
  ∧ speech_service demo_world
      (trace demo_world ++ [EvGetenv "endpoint"; EvGetenv "key"])
      (demo_client api_version) (speech_request "calm" "" "ash") = inr demo_audio
  ∧ tmp_available ".wav" demo_world
  ∧ speech_requests (trace (gpt4ominitts "calm" "" "ash" demo_world).2)
    = speech_requests (trace demo_world) ++
        [(demo_client api_version,
          {| sp_model := model_name; sp_voice := "ash"; sp_input := "";
             sp_instructions := "calm"; sp_response_format := "wav" |})]
  ∧ ∃ path, (gpt4ominitts "calm" "" "ash" demo_world).1 = inr path.
Proof.
  assert (Hc : tts_client demo_world = inr (demo_client api_version)) by (by vm_compute).
  assert (Htmp : tmp_available ".wav" demo_world).
  { exists 0. split; [unfold TMP_MAX; lia | by vm_compute]. }
  destruct (gpt4ominitts_text_unchecked "calm" "" "ash" demo_world) as [Hsent _].
  destruct (Hsent _ Hc) as [Hreq Hpath].
  split_and!; [exact Hc | reflexivity | exact Htmp | exact Hreq |].
  apply (Hpath demo_audio); [reflexivity | exact Htmp].
Defined.

(** C5 (as stated, refuted): the service answers with zero bytes and the
    call still succeeds; it returns the path of an empty file. *)
Lemma gpt4ominitts_empty_audio_succeeds :
  speech_service silent_world
    (trace silent_world ++ [EvGetenv "endpoint"; EvGetenv "key"])
    (demo_client api_version) (speech_request "calm" "hello" "ash") = inr []
  ∧ (gpt4ominitts "calm" "hello" "ash" silent_world).1 = inr "/tmp/tmp0.wav"
  ∧ files (gpt4ominitts "calm" "hello" "ash" silent_world).2 !! "/tmp/tmp0.wav"
    = Some [].
Proof. by vm_compute. Qed.

(** C5 (amended): [gpt4ominitts] does not look at the length of the
    payload.  When the service answers with a zero-length body (and the
    client could be constructed and a temporary name is free), the call
    ends normally: it creates a new file, leaves it empty and returns its
    path. *)
Theorem gpt4ominitts_empty_audio_written i t v w c :
  tts_client w = inr c →
  speech_service w (trace w ++ [EvGetenv "endpoint"; EvGetenv "key"]) c
    (speech_request i t v) = inr [] →
  tmp_available ".wav" w →
  ∃ path, (gpt4ominitts i t v w).1 = inr path
          ∧ files w !! path = None
          ∧ files (gpt4ominitts i t v w).2 !! path = Some [].
Proof.
  intros Hc Hsvc Htmp.
  destruct (gpt4ominitts_returns i t v w c [] Hc Hsvc Htmp) as [path Hpath].
  exists path. split; [done|].
  destruct (gpt4ominitts i t v w) as [r w'] eqn:Hrun. cbn in Hpath. subst r.
  apply gpt4ominitts_ok in Hrun as (c' & audio & Hc' & Hsvc' & Hfree & Hfiles & _).
  assert (c' = c) as -> by congruence.
  assert (audio = []) as -> by congruence.
  split; [done|]. cbn. rewrite Hfiles. apply lookup_insert_eq.
Qed.

(** The statement above in a world whose service answers with no bytes. *)
Lemma gpt4ominitts_empty_audio_written_witness :
  ∃ path, (gpt4ominitts "calm" "hello" "ash" silent_world).1 = inr path
          ∧ files silent_world !! path = None
          ∧ files (gpt4ominitts "calm" "hello" "ash" silent_world).2 !! path = Some [].
Proof.
  apply (gpt4ominitts_empty_audio_written "calm" "hello" "ash" silent_world
           (demo_client api_version)).
  - by vm_compute.
  - reflexivity.
  - exists 0. split; [unfold TMP_MAX; lia | by vm_compute].
Defined.

(** ** The form *)

(** The whole speech notebook on the demo world: two clicks, the second
    after choosing the fourth voice. *)
Example tts_notebook_two_clicks :
  speech_requests (trace (tts_notebook [ClickPlay; SelectVoice 3; ClickPlay] dotenv_world).2)
  = [ (demo_client api_version, speech_request instructions text "ash");
      (demo_client api_version, speech_request instructions text "coral") ]
  ∧ dom (files (tts_notebook [ClickPlay; SelectVoice 3; ClickPlay] dotenv_world).2)
    = {[ "/tmp/tmp0.wav"; "/tmp/tmp1.wav" ]}.
Proof. by vm_compute. Qed.

(** A click runs the handler once on the current values. *)
Lemma play_button_click_world f w :
  (play_button_click f w).2
  = (gpt4ominitts (instructions_box f) (input_box f) (dd_value (voice_picker f)) w).2.
Proof. unfold play_button_click. by destruct (gpt4ominitts _ _ _ w) as [[e|path] w']. Qed.






(** No action changes an existing file. *)
Lemma ui_step_keeps_files a f w p data :
  files w !! p = Some data → files (ui_step a f w).2 !! p = Some data.
Proof.
  intros Hp. destruct a as [s|s|i|]; cbn; try done.
  rewrite play_button_click_world. by apply gpt4ominitts_keeps_files.
Qed.

(** Unfolding a run by its first action. *)
Lemma ui_run_cons a actions f w :
  ui_run (a :: actions) f w = ui_run actions (ui_step a f w).1 (ui_step a f w).2.
Proof. cbn. by destruct (ui_step a f w). Qed.

Lemma ui_run_keeps_files actions f w p data :
  files w !! p = Some data → files (ui_run actions f w).2 !! p = Some data.
Proof.
  revert f w. induction actions as [|a actions IH]; intros f w Hp; [done|].
  rewrite ui_run_cons. by apply IH, ui_step_keeps_files.
Qed.



(** C4: a successful call hands the audio back intact.  The path it
    returns did not exist before; the call creates that file, writes the
    response bytes to it in one write and closes it; afterwards the file
    holds exactly those bytes and no other file has changed; and nothing
    the form does later (further calls included) changes it. *)
Theorem gpt4ominitts_audio_intact i t v w path w' :
  gpt4ominitts i t v w = (inr path, w') →
  ∃ c audio,
    speech_service w (trace w ++ [EvGetenv "endpoint"; EvGetenv "key"]) c
      (speech_request i t v) = inr audio
    ∧ files w !! path = None
    ∧ files w' = <[path := audio]> (files w)
    ∧ file_events (trace w')
      = file_events (trace w) ++
          [EvFileCreate path; EvFileWrite path audio; EvFileClose path]
    ∧ ∀ actions f, files (ui_run actions f w').2 !! path = Some audio.
Proof.
  intros Hrun.
  apply gpt4ominitts_ok in Hrun as (c & audio & _ & Hsvc & Hfree & Hfiles & Htrace & _).
  exists c, audio. split_and!; try done.
  - rewrite Htrace. unfold file_events. by rewrite omap_app.
  - intros actions f. apply ui_run_keeps_files. rewrite Hfiles. apply lookup_insert_eq.
Qed.

(** The statement above for the first call in [demo_world]. *)
Lemma gpt4ominitts_audio_intact_witness :
  ∃ c audio,
    speech_service demo_world
      (trace demo_world ++ [EvGetenv "endpoint"; EvGetenv "key"]) c
      (speech_request "calm" "hello" "ash") = inr audio
    ∧ files demo_world !! "/tmp/tmp0.wav" = None
    ∧ files (gpt4ominitts "calm" "hello" "ash" demo_world).2
      = <["/tmp/tmp0.wav" := audio]> (files demo_world)
    ∧ file_events (trace (gpt4ominitts "calm" "hello" "ash" demo_world).2)
      = file_events (trace demo_world) ++
          [EvFileCreate "/tmp/tmp0.wav"; EvFileWrite "/tmp/tmp0.wav" audio;
           EvFileClose "/tmp/tmp0.wav"]
    ∧ ∀ actions f,
        files (ui_run actions f (gpt4ominitts "calm" "hello" "ash" demo_world).2)
          .2 !! "/tmp/tmp0.wav" = Some audio.
Proof.
  apply (gpt4ominitts_audio_intact "calm" "hello" "ash" demo_world "/tmp/tmp0.wav").
  by vm_compute.
Defined.

(** ** Where the configuration is read and where its absence shows *)

(** Start-up of the speech notebook: [load_dotenv], then the form. *)
Lemma tts_startup_run w : tts_startup w = (inr webapp, (load_dotenv "azure.env" w).2).
Proof. unfold tts_startup. cbv [mbind M_bind mret M_ret]. by rewrite load_dotenv_run. Qed.

(** The start-up cells of the structured notebook, step by step. *)
Lemma startup_run w :
  startup w =
  let w0 := (load_dotenv "azure.env" w).2 in
  if os_bound w then
    let w2 := log (EvGetenv "AZURE_OPENAI_API_KEY")
                (log (EvGetenv "AZURE_OPENAI_API_ENDPOINT") w0) in
    match AzureOpenAI_init (environ w0) (environ w0 !! "AZURE_OPENAI_API_ENDPOINT")
            (environ w0 !! "AZURE_OPENAI_API_KEY") API_VERSION with
    | inl e => (inl e, w2)
    | inr c =>
        (inr {| AZURE_OPENAI_ENDPOINT := environ w0 !! "AZURE_OPENAI_API_ENDPOINT";
                AZURE_OPENAI_API_KEY := environ w0 !! "AZURE_OPENAI_API_KEY";
                client := c |}, w2)
    end
  else (inl (NameError "os"), w0).
Proof.
  unfold startup. rewrite bind_run, load_dotenv_run. cbn zeta. cbn [snd].
  destruct (os_bound w) eqn:Hos;
    destruct (dotenv_files w !! "azure.env") as [bindings|];
    cbv [name_os os_getenv AzureOpenAI mbind M_bind mret M_ret get_world emit raise];
    cbn -[AzureOpenAI_init]; rewrite Hos; try done;
    cbn -[AzureOpenAI_init]; rewrite Hos;
    by destruct (AzureOpenAI_init _ _ _ _).
Qed.

(** The extraction flow, step by step. *)
Lemma extraction_run g model messages w :
  extraction g model messages w =
  let w1 := log (EvChatCreate (client g) (chat_request model messages)) w in
  match chat_service w (trace w) (client g) (chat_request model messages) with
  | inl e => (inl e, w1)
  | inr response => (loads_cell response, w1)
  end.
Proof.
  cbv [extraction request_cell chat_completions_create lift
       mbind M_bind mret M_ret get_world emit raise].
  fold (chat_request model messages). cbn zeta.
  by destruct (chat_service w (trace w) (client g) _).
Qed.

(** The flow adds exactly one trace entry: its request. *)
Lemma extraction_trace g model messages w :
  trace (extraction g model messages w).2
  = trace w ++ [EvChatCreate (client g) (chat_request model messages)].
Proof.
  rewrite extraction_run. cbn zeta.
  by destruct (chat_service w (trace w) (client g) _).
Qed.

(** Equal request lists, equal counts. *)
Lemma network_calls_speech t t' :
  speech_requests t' = speech_requests t → chat_requests t' = chat_requests t →
  network_calls t' = network_calls t.
Proof. unfold network_calls. by intros -> ->. Qed.

(** C6 (as stated, refuted): in the speech notebook nothing reads endpoint
    or key at start-up, and every click on the button reads both again:
    after start-up and two clicks each has been looked up twice. *)
Lemma tts_configuration_read_at_every_call :
  env_reads (trace (tts_startup demo_world).2) = []
  ∧ env_reads (trace (tts_notebook [ClickPlay; ClickPlay] demo_world).2)
    = ["endpoint"; "key"; "endpoint"; "key"].
Proof. by vm_compute. Qed.

(** C6 (amended): the API version is a constant in both notebooks.  The
    structured notebook reads endpoint and key once, in its start-up cells,
    and builds one client there; every extraction request is sent with that
    client and reads nothing from the environment.  The speech notebook
    reads nothing at start-up: every call of [gpt4ominitts] looks up
    [endpoint] and [key] in the environment again and sends its request
    with a client built from the values found at that moment. *)
Theorem configuration_reads :
  (∀ i t v w,
      env_reads (trace (gpt4ominitts i t v w).2)
      = env_reads (trace w) ++ ["endpoint"; "key"]
      ∧ speech_requests (trace (gpt4ominitts i t v w).2)
        = speech_requests (trace w) ++
            match AzureOpenAI_init (environ w) (environ w !! "endpoint")
                    (environ w !! "key") api_version with
            | inr c => [(c, speech_request i t v)]
            | inl _ => []
            end)
  ∧ (∀ w, env_reads (trace (tts_startup w).2) = env_reads (trace w))
  ∧ (∀ w g w',
        startup w = (inr g, w') →
        env_reads (trace w')
        = env_reads (trace w) ++ ["AZURE_OPENAI_API_ENDPOINT"; "AZURE_OPENAI_API_KEY"]
        ∧ AzureOpenAI_init (environ w') (AZURE_OPENAI_ENDPOINT g)
            (AZURE_OPENAI_API_KEY g) API_VERSION = inr (client g))
  ∧ (∀ g model messages w,
        env_reads (trace (extraction g model messages w).2) = env_reads (trace w)
        ∧ chat_requests (trace (extraction g model messages w).2)
          = chat_requests (trace w) ++ [(client g, chat_request model messages)]).
Proof.
  split_and!.
  - intros i t v w. split.
    + apply gpt4ominitts_env_reads.
    + apply gpt4ominitts_speech_requests.
  - intros w. rewrite tts_startup_run. cbn [snd].
    destruct (load_dotenv_world "azure.env" w) as (-> & _).
    unfold env_reads. rewrite omap_app. apply app_nil_r.
  - intros w g w'. rewrite startup_run. cbn zeta.
    destruct (load_dotenv_world "azure.env" w) as (Htrace & _).
    destruct (os_bound w); [|discriminate].
    destruct (AzureOpenAI_init _ _ _ _) as [e|c] eqn:Hinit; [discriminate|].
    intros [= <- <-]. cbn. split; [|done].
    rewrite Htrace. unfold env_reads. rewrite !omap_app. cbn.
    by rewrite app_nil_r, <- app_assoc.
  - intros g model messages w. rewrite extraction_trace.
    unfold env_reads, chat_requests. rewrite !omap_app. cbn.
    by rewrite app_nil_r.
Qed.

(** The statement above for the start-up cells in [dotenv_world]. *)
Lemma configuration_reads_witness :
  startup dotenv_world
  = (inr {| AZURE_OPENAI_ENDPOINT := Some "https://demo.openai.azure.com/";
            AZURE_OPENAI_API_KEY := Some "demo-key";
            client := demo_client API_VERSION |},
     (startup dotenv_world).2)
  ∧ env_reads (trace (startup dotenv_world).2)
    = env_reads (trace dotenv_world) ++
        ["AZURE_OPENAI_API_ENDPOINT"; "AZURE_OPENAI_API_KEY"]
  ∧ AzureOpenAI_init (environ (startup dotenv_world).2)
      (Some "https://demo.openai.azure.com/") (Some "demo-key") API_VERSION
    = inr (demo_client API_VERSION).
Proof.
  assert (Hrun : startup dotenv_world
                 = (inr {| AZURE_OPENAI_ENDPOINT := Some "https://demo.openai.azure.com/";
                           AZURE_OPENAI_API_KEY := Some "demo-key";
                           client := demo_client API_VERSION |},
                    (startup dotenv_world).2)) by (by vm_compute).
  split; [exact Hrun|].
  destruct configuration_reads as (_ & _ & Hstartup & _).
  exact (Hstartup _ _ _ Hrun).
Defined.

(** C7 (as stated, refuted): with no configuration at all the speech
    notebook starts without an error; the missing credential comes up only
    when the button is clicked, as the exception of that call, before any
    request. *)
Lemma tts_missing_configuration_found_at_first_call :
  environ bare_world = ∅
  ∧ (tts_startup bare_world).1 = inr webapp
  ∧ (gpt4ominitts instructions text "ash" (tts_startup bare_world).2).1
    = inl OpenAIError
  ∧ network_calls (trace (tts_notebook [ClickPlay] bare_world).2) = 0.
Proof. by vm_compute. Qed.

(** C7 (amended): the API version is a literal and cannot be absent.  In
    the structured notebook (run in a session that binds [os]) a missing
    endpoint or credential ends the start-up cells with the exception of
    the client constructor, before any request.  The start-up of the speech
    notebook checks nothing and cannot fail; there a missing endpoint or
    credential is first detected by the client constructor inside
    [gpt4ominitts], and the call fails before any request is sent. *)
Theorem missing_configuration_detected :
  (∀ w, os_bound w = true →
        endpoint_absent (environ_with_dotenv "azure.env" w) "AZURE_OPENAI_API_ENDPOINT"
        ∨ key_absent (environ_with_dotenv "azure.env" w) "AZURE_OPENAI_API_KEY" →
        ∃ e, (startup w).1 = inl e
             ∧ (e = ValueError ∨ e = OpenAIError)
             ∧ network_calls (trace (startup w).2) = network_calls (trace w))
  ∧ (∀ w, (tts_startup w).1 = inr webapp)
  ∧ (∀ i t v w,
        endpoint_absent (environ w) "endpoint" ∨ key_absent (environ w) "key" →
        ∃ e, (gpt4ominitts i t v w).1 = inl e
             ∧ (e = ValueError ∨ e = OpenAIError)
             ∧ network_calls (trace (gpt4ominitts i t v w).2) = network_calls (trace w)).
Proof.
  split_and!.
  - intros w Hos Habsent. rewrite startup_run. cbn zeta. rewrite Hos.
    destruct (load_dotenv_world "azure.env" w) as (Htrace & Henv & _).
    rewrite Henv.
    destruct (AzureOpenAI_init_absent _ _ _ API_VERSION Habsent) as (e & -> & He).
    exists e. split_and!; [done | done |]. cbn.
    apply network_calls_speech;
      rewrite Htrace; unfold speech_requests, chat_requests;
      rewrite !omap_app; cbn; by rewrite !app_nil_r.
  - intros w. by rewrite tts_startup_run.
  - intros i t v w Habsent.
    destruct (AzureOpenAI_init_absent _ _ _ api_version Habsent) as (e & Hinit & He).
    exists e. split_and!; [| done |].
    + rewrite gpt4ominitts_run. cbn zeta. by rewrite Hinit.
    + apply network_calls_speech.
      * rewrite gpt4ominitts_speech_requests. unfold tts_client. rewrite Hinit.
        apply app_nil_r.
      * apply gpt4ominitts_chat_requests.
Qed.

(** The statement above in [bare_world], which has no configuration. *)
Lemma missing_configuration_detected_witness :
  (∃ e, (startup bare_world).1 = inl e
        ∧ (e = ValueError ∨ e = OpenAIError)
        ∧ network_calls (trace (startup bare_world).2)
          = network_calls (trace bare_world))
  ∧ (∃ e, (gpt4ominitts "calm" "hello" "ash" bare_world).1 = inl e
          ∧ (e = ValueError ∨ e = OpenAIError)
          ∧ network_calls (trace (gpt4ominitts "calm" "hello" "ash" bare_world).2)
            = network_calls (trace bare_world)).
Proof.
  destruct missing_configuration_detected as (Hstartup & _ & Hcall).
  split.
  - apply Hstartup; [reflexivity|]. left. by vm_compute.
  - apply Hcall. left. by vm_compute.
Defined.

(** ** The decoder on small inputs *)

(** A later member with the same name replaces the earlier value. *)
Example json_loads_duplicate_key :
  json_loads (dq "{'a': 1, 'b': [true, null], 'a': 2.5}")
  = inr (PDict (dict [ ("a", PFloat "2.5");
                       ("b", PList [PBool true; PNone]) ])).
Proof. by vm_compute. Qed.

(** A trailing comma is not JSON. *)
Example json_loads_trailing_comma : json_loads (dq "{'a': 1,}") = inl JSONDecodeError.
Proof. by vm_compute. Qed.

(** Escapes: a two-byte character, a surrogate pair, a line feed. *)
Example json_loads_escape :
  json_loads (dq "'caf\u00e9 \ud83d\ude00\n'") = inr (PStr "café 😀
").
Proof. by vm_compute. Qed.

(** ** The decoder terminates by consuming input, not by running out of fuel *)

Import Json.

(** Skipping white space does not lengthen the input. *)
Lemma skip_ws_length s : String.length (skip_ws s) ≤ String.length s.
Proof. induction s as [|c s IH]; cbn; [lia|]. destruct (is_ws c); cbn; lia. Qed.

Lemma next_is_length c s rest : next_is c s = Some rest → String.length s = S (String.length rest).
Proof.
  destruct s as [|a s]; cbn; [done|]. destruct (a =? c)%char; [|done].
  by intros [= ->].
Qed.

(** A scanned string consumed at least its closing quote. *)
Lemma scanstring_length s str rest :
  scanstring s = Some (str, rest) → String.length rest < String.length s.
Proof.
  revert str rest.
  induction s as [s IH] using (induction_ltof1 _ String.length); unfold ltof in IH.
  assert (Htail : ∀ t (pre : string) str rest,
             String.length t < String.length s →
             (scanstring t ≫= λ '(tail, after), Some (pre +:+ tail, after))
             = Some (str, rest) →
             String.length rest < String.length t).
  { intros t pre str rest Ht Hrun.
    destruct (scanstring t) as [[tail after]|] eqn:Hs; [|done].
    cbn in Hrun. injection Hrun as <- <-. by eapply IH. }
  intros str rest. destruct s as [|c s]; [done|]. cbn [scanstring].
  destruct (c =? dquote)%char; [intros [= <- <-]; cbn; lia|].
  destruct (c =? backslash)%char.
  2:{ destruct (N_of_ascii c <? 32)%N; [done|].
      intros Hrun. apply (Htail s (String c "")) in Hrun; cbn in *; lia. }
  destruct s as [|esc s]; [done|].
  destruct (esc =? "u")%char.
  2:{ destruct (simple_escape esc) as [ch|]; [|done]. cbn.
      intros Hrun. apply (Htail s (String ch "")) in Hrun; cbn in *; lia. }
  destruct s as [|h1 [|h2 [|h3 [|h4 s]]]]; try done.
  destruct (decode_uXXXX h1 h2 h3 h4) as [uni|]; [|done]. cbn [mbind option_bind].
  assert (Hsingle : (scanstring s ≫= λ '(tail, after), Some (chr uni +:+ tail, after))
                    = Some (str, rest) → String.length rest < String.length (String c (String esc
                        (String h1 (String h2 (String h3 (String h4 s))))))).
  { intros Hrun. apply Htail in Hrun; cbn in *; lia. }
  destruct s as [|b [|u [|l1 [|l2 [|l3 [|l4 s]]]]]]; try exact Hsingle.
  destruct (if (b =? backslash)%char && (u =? "u")%char && is_high_surrogate uni
            then decode_uXXXX l1 l2 l3 l4 else None) as [uni2|]; [|exact Hsingle].
  destruct (is_low_surrogate uni2); [|exact Hsingle].
  intros Hrun. apply Htail in Hrun; cbn in *; lia.
Qed.

Lemma take_digits_length s ds after :
  take_digits s = (ds, after) → String.length after ≤ String.length s.
Proof.
  revert ds after. induction s as [|c s IH]; intros ds after; cbn.
  - intros [= <- <-]. cbn. lia.
  - destruct (is_digit c); [|intros [= <- <-]; cbn; lia].
    destruct (take_digits s) as [ds' after'] eqn:Hs. intros [= <- <-].
    specialize (IH _ _ eq_refl). lia.
Qed.

Lemma match_integer_length s int after :
  match_integer s = Some (int, after) → String.length after < String.length s.
Proof.
  destruct s as [|c s]; cbn; [done|].
  destruct (c =? "0")%char; [intros [= <- <-]; lia|].
  destruct (is_digit c); [|done].
  destruct (take_digits s) as [ds after'] eqn:Hs. intros [= <- <-].
  apply take_digits_length in Hs. lia.
Qed.

Lemma match_frac_length s frac after :
  match_frac s = (frac, after) → String.length after ≤ String.length s.
Proof.
  unfold match_frac. destruct (next_is "." s) as [rest|] eqn:Hdot.
  - apply next_is_length in Hdot.
    destruct (take_digits rest) as [[|d ds] after'] eqn:Hds; intros [= <- <-]; [lia|].
    apply take_digits_length in Hds. lia.
  - intros [= <- <-]. lia.
Qed.

Lemma match_exp_length s exp after :
  match_exp s = (exp, after) → String.length after ≤ String.length s.
Proof.
  unfold match_exp. destruct s as [|e rest]; [intros [= <- <-]; lia|].
  destruct ((e =? "e")%char || (e =? "E")%char); [|intros [= <- <-]; lia].
  assert (Hsign : ∀ sign rest1,
             match rest with
             | String g rest1 =>
                 if (g =? "-")%char || (g =? "+")%char then (String g "", rest1)
                 else ("", rest)
             | EmptyString => ("", rest)
             end = (sign, rest1) → String.length rest1 ≤ String.length rest).
  { intros sign rest1. destruct rest as [|g rest']; [intros [= <- <-]; lia|].
    destruct ((g =? "-")%char || (g =? "+")%char); intros [= <- <-]; cbn; lia. }
  destruct (match rest with EmptyString => _ | String _ _ => _ end) as [sign rest1].
  specialize (Hsign _ _ eq_refl).
  destruct (take_digits rest1) as [[|d ds] after'] eqn:Hds; intros [= <- <-]; [lia|].
  apply take_digits_length in Hds. cbn. lia.
Qed.

(** A matched number consumed at least one digit. *)
Lemma match_number_length s j rest :
  match_number s = Some (j, rest) → String.length rest < String.length s.
Proof.
  unfold match_number.
  assert (Hneg : ∀ neg s1,
             match next_is "-" s with
             | Some rest => (true, rest)
             | None => (false, s)
             end = (neg, s1) → String.length s1 ≤ String.length s).
  { intros neg s1. destruct (next_is "-" s) as [r|] eqn:Hminus; intros [= <- <-]; [|lia].
    apply next_is_length in Hminus. lia. }
  destruct (match next_is "-" s with Some _ => _ | None => _ end) as [neg s1].
  specialize (Hneg _ _ eq_refl).
  destruct (match_integer s1) as [[int s2]|] eqn:Hint; [|done]. cbn.
  apply match_integer_length in Hint.
  destruct (match_frac s2) as [frac s3] eqn:Hfrac. apply match_frac_length in Hfrac.
  destruct (match_exp s3) as [exp s4] eqn:Hexp. apply match_exp_length in Hexp.
  destruct frac, exp; intros [= <- <-]; lia.
Qed.

Lemma strip_prefix_length p s rest :
  strip_prefix p s = Some rest → String.length s = String.length p + String.length rest.
Proof.
  revert s. induction p as [|a p IH]; intros s; cbn; [by intros [= ->]|].
  destruct s as [|b s]; [done|]. destruct (a =? b)%char; [|done].
  intros Hs. apply IH in Hs. cbn. lia.
Qed.

(** The loops do not depend on the fuel or on how the values are scanned,
    as long as the fuel exceeds the input and the scanners agree on inputs
    no longer than it. *)
Lemma array_items_stable n scan scan' :
  (∀ t, String.length t ≤ n → scan t = scan' t) →
  (∀ t j r, String.length t ≤ n → scan t = Some (j, r) → String.length r < String.length t) →
  ∀ fuel fuel' s values,
    String.length s ≤ n → String.length s < fuel → String.length s < fuel' →
    array_items scan fuel s values = array_items scan' fuel' s values
    ∧ ∀ j r, array_items scan fuel s values = Some (j, r) → String.length r < String.length s.
Proof.
  intros Hagree Hshrink.
  induction fuel as [|fuel IH]; intros fuel' s values Hn Hfuel Hfuel'; [lia|].
  destruct fuel' as [|fuel']; [lia|]. cbn [array_items].
  rewrite <- (Hagree s Hn).
  destruct (scan s) as [[value s1]|] eqn:Hscan; [|done]. cbn.
  apply Hshrink in Hscan; [|done].
  pose proof (skip_ws_length s1) as Hws.
  destruct (next_is "]" (skip_ws s1)) as [s2|] eqn:Hclose.
  { apply next_is_length in Hclose. split; [done|]. intros j r [= <- <-]. lia. }
  destruct (next_is "," (skip_ws s1)) as [s2|] eqn:Hcomma; [|done].
  apply next_is_length in Hcomma. pose proof (skip_ws_length s2) as Hws2.
  destruct (IH fuel' (skip_ws s2) (values ++ [value])) as [Heq Hlen]; [lia..|].
  split; [done|]. intros j r Hrun. apply Hlen in Hrun. lia.
Qed.

Lemma object_members_stable n scan scan' :
  (∀ t, String.length t ≤ n → scan t = scan' t) →
  (∀ t j r, String.length t ≤ n → scan t = Some (j, r) → String.length r < String.length t) →
  ∀ fuel fuel' s pairs,
    String.length s ≤ n → String.length s < fuel → String.length s < fuel' →
    object_members scan fuel s pairs = object_members scan' fuel' s pairs
    ∧ ∀ j r, object_members scan fuel s pairs = Some (j, r) → String.length r < String.length s.
Proof.
  intros Hagree Hshrink.
  induction fuel as [|fuel IH]; intros fuel' s pairs Hn Hfuel Hfuel'; [lia|].
  destruct fuel' as [|fuel']; [lia|]. cbn [object_members].
  destruct (scanstring s) as [[key s1]|] eqn:Hkey; [|done]. cbn.
  apply scanstring_length in Hkey. pose proof (skip_ws_length s1) as Hws1.
  destruct (next_is ":" (skip_ws s1)) as [s2|] eqn:Hcolon; [|done]. cbn.
  apply next_is_length in Hcolon. pose proof (skip_ws_length s2) as Hws2.
  rewrite <- (Hagree (skip_ws s2)) by lia.
  destruct (scan (skip_ws s2)) as [[value s3]|] eqn:Hscan; [|done]. cbn.
  apply Hshrink in Hscan; [|lia]. pose proof (skip_ws_length s3) as Hws3.
  destruct (next_is "}" (skip_ws s3)) as [s4|] eqn:Hclose.
  { apply next_is_length in Hclose. split; [done|]. intros j r [= <- <-]. lia. }
  destruct (next_is "," (skip_ws s3)) as [s4|] eqn:Hcomma; [|done].
  apply next_is_length in Hcomma. pose proof (skip_ws_length s4) as Hws4.
  destruct (next_is dquote (skip_ws s4)) as [s5|] eqn:Hquote; [|done]. cbn.
  apply next_is_length in Hquote.
  destruct (IH fuel' s5 (pairs ++ [(key, value)])) as [Heq Hlen]; [lia..|].
  split; [done|]. intros j r Hrun. apply Hlen in Hrun. lia.
Qed.

(** Fuel above the length of the input is never used up: any such amount
    gives the same result, and a scanned value consumes input. *)
Lemma scan_once_stable fuel s :
  String.length s < fuel →
  (∀ fuel', String.length s < fuel' → scan_once fuel' s = scan_once fuel s)
  ∧ (∀ j r, scan_once fuel s = Some (j, r) → String.length r < String.length s).
Proof.
  revert s. induction fuel as [|fuel IH]; intros s Hfuel; [lia|].
  assert (Hlit : ∀ j r,
             match strip_prefix "null" s, strip_prefix "true" s, strip_prefix "false" s with
             | Some after, _, _ => Some (JNull, after)
             | _, Some after, _ => Some (JBool true, after)
             | _, _, Some after => Some (JBool false, after)
             | None, None, None =>
                 match match_number s with
                 | Some r => Some r
                 | None =>
                     match strip_prefix "NaN" s, strip_prefix "Infinity" s,
                           strip_prefix "-Infinity" s with
                     | Some after, _, _ => Some (JFloat "NaN", after)
                     | _, Some after, _ => Some (JFloat "Infinity", after)
                     | _, _, Some after => Some (JFloat "-Infinity", after)
                     | None, None, None => None
                     end
                 end
             end = Some (j, r) → String.length r < String.length s).
  { intros j r.
    destruct (match_number s) as [[j' r']|] eqn:Hnum;
      [apply match_number_length in Hnum|].
    all: repeat match goal with
           | |- context [strip_prefix ?p ?t] =>
               let H := fresh "H" in
               destruct (strip_prefix p t) eqn:H;
               [apply strip_prefix_length in H; cbn in H|]
           end;
      first [done | intros [= <- <-]; lia]. }
  destruct s as [|c rest]; [by split; [intros [|fuel'] _|]|].
  cbn [String.length] in Hfuel.
  assert (Hsub : ∀ t, String.length t ≤ String.length rest →
            (∀ fuel', String.length t < fuel' → scan_once fuel' t = scan_once fuel t)
            ∧ (∀ j r, scan_once fuel t = Some (j, r) → String.length r < String.length t)).
  { intros t Ht. apply IH. lia. }
  pose proof (skip_ws_length rest) as Hws.
  split.
  - intros [|fuel'] Hfuel'; [lia|]. cbn [String.length] in Hfuel'.
    cbn [scan_once].
    destruct (c =? dquote)%char; [done|].
    destruct (c =? "{")%char.
    { destruct (next_is "}" (skip_ws rest)); [done|].
      destruct (next_is dquote (skip_ws rest)) as [after|] eqn:Hquote; [|done].
      apply next_is_length in Hquote.
      apply (object_members_stable (String.length after)); try lia.
      - intros t Ht. apply Hsub; lia.
      - intros t j r Ht Hrun. destruct (Hsub t) as [Heq Hlen]; [lia|].
        apply (Hlen j). rewrite <- Hrun. symmetry. apply Heq. lia. }
    destruct (c =? "[")%char; [|done].
    destruct (next_is "]" (skip_ws rest)); [done|].
    apply (array_items_stable (String.length (skip_ws rest))); try lia.
    + intros t Ht. apply Hsub; lia.
    + intros t j r Ht Hrun. destruct (Hsub t) as [Heq Hlen]; [lia|].
      apply (Hlen j). rewrite <- Hrun. symmetry. apply Heq. lia.
  - intros j r. cbn [scan_once String.length].
    destruct (c =? dquote)%char.
    { destruct (scanstring rest) as [[str after]|] eqn:Hstr; [|done].
      intros [= <- <-]. apply scanstring_length in Hstr. lia. }
    destruct (c =? "{")%char.
    { destruct (next_is "}" (skip_ws rest)) as [after|] eqn:Hclose.
      { apply next_is_length in Hclose. intros [= <- <-]. lia. }
      destruct (next_is dquote (skip_ws rest)) as [after|] eqn:Hquote; [|done].
      apply next_is_length in Hquote. intros Hrun.
      assert (Hshrink : ∀ t j' r', String.length t ≤ String.length after →
                scan_once fuel t = Some (j', r') → String.length r' < String.length t).
      { intros t j' r' Ht. apply Hsub. lia. }
      destruct (object_members_stable (String.length after) (scan_once fuel) (scan_once fuel)
                  (λ _ _, eq_refl) Hshrink fuel fuel after []) as [_ Hlen]; [lia..|].
      apply Hlen in Hrun. lia. }
    destruct (c =? "[")%char; [|apply (Hlit j r)].
    destruct (next_is "]" (skip_ws rest)) as [after|] eqn:Hclose.
    { apply next_is_length in Hclose. intros [= <- <-]. lia. }
    intros Hrun.
    assert (Hshrink : ∀ t j' r', String.length t ≤ String.length (skip_ws rest) →
              scan_once fuel t = Some (j', r') → String.length r' < String.length t).
    { intros t j' r' Ht. apply Hsub. lia. }
    destruct (array_items_stable (String.length (skip_ws rest)) (scan_once fuel) (scan_once fuel)
                (λ _ _, eq_refl) Hshrink fuel fuel (skip_ws rest) []) as [_ Hlen]; [lia..|].
    apply Hlen in Hrun. lia.
Qed.

(** [decode] gives its scanner enough fuel: more would not change the
    result. *)
Lemma decode_fuel_adequate s fuel :
  String.length s < fuel → scan_once fuel (skip_ws s) = scan_once (S (String.length s)) (skip_ws s).
Proof.
  intros Hfuel. pose proof (skip_ws_length s) as Hws.
  apply scan_once_stable; lia.
Qed.

(** ** The structured extraction flow *)

(** Examples 1 and 2 are the extraction flow followed by the printed
    look-ups: the cells that only print the function or its arguments raise
    nothing the [json.loads] cell would not raise. *)
Lemma example1_extraction g w :
  example1 g w
  = (results ← extraction g GetInformations messages1;
     printed ← lift (print_fields results
                       ["weather_location"; "country_location"; "country_language"]);
     mret (results, printed)) w.
Proof.
  cbv [example1 extraction request_cell chat_completions_create lift loads_cell
       mbind M_bind Py_bind mret M_ret Py_ret get_world emit raise].
  destruct (chat_service w (trace w) (client g) _) as [e|response]; [done|].
  by destruct (first_function response).
Qed.

Lemma example2_extraction g w :
  example2 g w
  = (results ← extraction g ProductSupport messages2;
     printed ← lift (print_fields results ["product"; "brand"; "issue"]);
     mret (results, printed)) w.
Proof.
  cbv [example2 extraction request_cell chat_completions_create lift loads_cell
       mbind M_bind Py_bind mret M_ret Py_ret get_world emit raise].
  destruct (chat_service w (trace w) (client g) _) as [e|response]; [done|].
  by destruct (first_function response).
Qed.

(** The recorded run of Example 1: the three printed values. *)
Example example1_recorded :
  (example1 demo_globals demo_world).1
  = inr (PDict (dict [ ("weather_location", PStr "Paris");
                       ("country_location", PStr "France");
                       ("country_language", PStr "French") ]),
         [PStr "Paris"; PStr "France"; PStr "French"]).
Proof. by vm_compute. Qed.

(** Example 2 asks for keys the recorded answer of Example 1 does not have. *)
Example example2_on_other_answer :
  (example2 demo_globals demo_world).1 = inl (KeyError "product").
Proof. by vm_compute. Qed.



(** Converting the values keeps the keys. *)
Lemma to_py_object_keys members :
  (map (λ kv : string * json, (kv.1, to_py kv.2)) members).*1 = members.*1.
Proof. induction members as [|[k v] members IH]; cbn; [done | by f_equal]. Qed.




(** C2 (as stated, refuted): when the model answers in prose the flow ends
    with the exception of the subscript [tool_calls[0]]: [IndexError] for an
    empty list, [TypeError] for [None]; the same [IndexError] that a
    response without any choice gives. *)
Lemma extraction_free_text_raises :
  (extraction demo_globals GetInformations messages1 (free_text_world (Some []))).1
  = inl IndexError
  ∧ (extraction demo_globals GetInformations messages1 (free_text_world None)).1
    = inl TypeError
  ∧ loads_cell {| cc_id := "chatcmpl-empty"; choices := []; cc_model := MODEL |}
    = inl IndexError.
Proof. by vm_compute. Qed.

(** C2 (amended): the flow has no branch for a response without a tool
    call.  For every response whose first choice has an empty tool-call
    list the flow raises the built-in [IndexError] of [tool_calls[0]], and
    [TypeError] when the list is [None]; the response is never taken for a
    success. *)
Theorem extraction_without_tool_call g model messages w response choice more :
  chat_service w (trace w) (client g) (chat_request model messages) = inr response →
  choices response = choice :: more →
  (tool_calls (message choice) = Some [] →
   (extraction g model messages w).1 = inl IndexError)
  ∧ (tool_calls (message choice) = None →
     (extraction g model messages w).1 = inl TypeError).
Proof.
  intros Hresponse Hchoices.
  rewrite extraction_run. cbn zeta. rewrite Hresponse. cbn [fst].
  unfold loads_cell, first_function. rewrite Hchoices. cbn.
  split; by intros ->.
Qed.

(** The statement above on a completion with an empty tool-call list. *)
Lemma extraction_without_tool_call_witness :
  (extraction demo_globals GetInformations messages1 (free_text_world (Some []))).1
  = inl IndexError.
Proof.
  eapply (extraction_without_tool_call demo_globals GetInformations messages1
            (free_text_world (Some [])) (free_text_response (Some []))).
  - reflexivity.
  - reflexivity.
  - reflexivity.
Defined.

(** C8: [results] is the decoding of the arguments of the first tool call
    of the first choice; further tool calls and further choices of the
    response have no influence, and the flow surfaces that value. *)
Theorem results_from_first_tool_call_only :
  (∀ id model_id reason idx text refusal who call other_calls other_choices,
      loads_cell
        {| cc_id := id;
           choices :=
             {| finish_reason := reason; index := idx;
                message := {| msg_content := text; msg_refusal := refusal;
                              msg_role := who;
                              tool_calls := Some (call :: other_calls) |} |}
             :: other_choices;
           cc_model := model_id |}
      = json_loads (fn_arguments (tc_function call)))
  ∧ (∀ g model messages w,
        (extraction g model messages w).1
        = match chat_service w (trace w) (client g) (chat_request model messages) with
          | inl e => inl e
          | inr response => loads_cell response
          end).
Proof.
  split; [done|].
  intros g model messages w. rewrite extraction_run. cbn zeta.
  by destruct (chat_service w (trace w) (client g) _).
Qed.

(** * Further properties of the two notebooks *)

(** ** One call of [gpt4ominitts]: the file it returns, and its failures *)






(** ** Runs of the form *)

(** No action changes [os.environ]. *)
Lemma ui_step_environ a f w : environ (ui_step a f w).2 = environ w.
Proof.
  destruct a as [s|s|k|]; cbn; try done.
  rewrite play_button_click_world.
  by destruct (gpt4ominitts_same_surroundings (instructions_box f) (input_box f)
                 (dd_value (voice_picker f)) w) as (-> & _).
Qed.

Lemma ui_run_environ actions f w : environ (ui_run actions f w).2 = environ w.
Proof.
  revert f w. induction actions as [|a actions IH]; intros f w; [done|].
  by rewrite ui_run_cons, IH, ui_step_environ.
Qed.

Lemma tts_client_environ w w' : environ w' = environ w → tts_client w' = tts_client w.
Proof. unfold tts_client. by intros ->. Qed.

(** X3: two successful calls never share a file.  Whatever the form does
    between them, the second call returns a different path, and the file of
    the first call still holds the bytes of the first response. *)
Theorem gpt4ominitts_calls_use_distinct_files
    i1 t1 v1 i2 t2 v2 w path1 w1 actions f path2 w2 :
  gpt4ominitts i1 t1 v1 w = (inr path1, w1) →
  gpt4ominitts i2 t2 v2 (ui_run actions f w1).2 = (inr path2, w2) →
  path1 ≠ path2
  ∧ ∃ audio1 audio2,
      files w1 !! path1 = Some audio1
      ∧ files w2 !! path1 = Some audio1
      ∧ files w2 !! path2 = Some audio2.
Proof.
  intros Hfirst Hsecond.
  apply gpt4ominitts_ok in Hfirst as (c1 & audio1 & _ & _ & _ & Hfiles1 & _).
  assert (Hkept : files (ui_run actions f w1).2 !! path1 = Some audio1).
  { apply ui_run_keeps_files. rewrite Hfiles1. apply lookup_insert_eq. }
  apply gpt4ominitts_ok in Hsecond as (c2 & audio2 & _ & _ & Hfree2 & Hfiles2 & _).
  assert (Hne : path1 ≠ path2) by congruence.
  split; [done|]. exists audio1, audio2. split_and!.
  - rewrite Hfiles1. apply lookup_insert_eq.
  - rewrite Hfiles2. by rewrite lookup_insert_ne.
  - rewrite Hfiles2. apply lookup_insert_eq.
Qed.

Lemma gpt4ominitts_calls_use_distinct_files_witness :
  "/tmp/tmp0.wav" ≠ "/tmp/tmp1.wav"
  ∧ ∃ audio1 audio2,
      files (gpt4ominitts "calm" "one" "ash" demo_world).2 !! "/tmp/tmp0.wav" = Some audio1
      ∧ files (gpt4ominitts "calm" "two" "echo"
                 (ui_run [SelectVoice 4] webapp
                    (gpt4ominitts "calm" "one" "ash" demo_world).2).2).2
          !! "/tmp/tmp0.wav" = Some audio1
      ∧ files (gpt4ominitts "calm" "two" "echo"
                 (ui_run [SelectVoice 4] webapp
                    (gpt4ominitts "calm" "one" "ash" demo_world).2).2).2
          !! "/tmp/tmp1.wav" = Some audio2.
Proof.
  apply (gpt4ominitts_calls_use_distinct_files
           "calm" "one" "ash" "calm" "two" "echo" demo_world "/tmp/tmp0.wav"
           (gpt4ominitts "calm" "one" "ash" demo_world).2 [SelectVoice 4] webapp
           "/tmp/tmp1.wav").
  - by vm_compute.
  - by vm_compute.
Defined.

Lemma clicks_cons a actions :
  clicks (a :: actions)
  = (match a with ClickPlay => 1 | _ => 0 end) + clicks actions.
Proof. unfold clicks. by destruct a. Qed.

(** X4: every click is one call.  Along any run of the form each click
    looks up [endpoint] and [key] once more, and sends exactly one request
    when the client can be constructed from the environment and none when
    it cannot; nothing else the visitor does sends or reads anything. *)
Theorem ui_run_one_request_per_click actions f w :
  env_reads (trace (ui_run actions f w).2)
  = env_reads (trace w) ++ concat (replicate (clicks actions) ["endpoint"; "key"])
  ∧ length (speech_requests (trace (ui_run actions f w).2))
    = length (speech_requests (trace w))
      + match tts_client w with
        | inr _ => clicks actions
        | inl _ => 0
        end.
Proof.
  revert f w. induction actions as [|a actions IH]; intros f w.
  - cbn. rewrite app_nil_r. split; [done|]. destruct (tts_client w); lia.
  - rewrite ui_run_cons, clicks_cons.
    destruct (IH (ui_step a f w).1 (ui_step a f w).2) as [Hreads Hsent].
    rewrite Hreads, Hsent, (tts_client_environ w _ (ui_step_environ a f w)).
    destruct a as [s|s|k|]; cbn [ui_step fst snd]; try done.
    rewrite play_button_click_world, gpt4ominitts_env_reads,
      gpt4ominitts_speech_requests, length_app.
    split.
    + cbn. by rewrite <- app_assoc.
    + destruct (tts_client w); cbn; lia.
Qed.

(** X5: only the button does anything.  A run without a click leaves the
    world exactly as it was: no lookup, no request, no file. *)
Theorem ui_run_without_click_is_silent actions f w :
  clicks actions = 0 → (ui_run actions f w).2 = w.
Proof.
  revert f w. induction actions as [|a actions IH]; intros f w; [done|].
  rewrite clicks_cons, ui_run_cons. destruct a as [s|s|k|]; cbn; try lia; apply IH.
Qed.

Lemma ui_run_without_click_is_silent_witness :
  (ui_run [EditText "bonjour"; SelectVoice 2; EditInstructions "slow"] webapp demo_world).2
  = demo_world.
Proof.
  apply (ui_run_without_click_is_silent
           [EditText "bonjour"; SelectVoice 2; EditInstructions "slow"] webapp demo_world).
  reflexivity.
Defined.

(** X6: the button is wired in the order of the parameters.  After the
    visitor has typed instructions and text and chosen the [k]-th voice, a
    click sends one request whose instructions, input and voice are exactly
    those three values. *)
Theorem ui_click_sends_current_inputs a b k voice w c :
  VOICES !! k = Some voice →
  tts_client w = inr c →
  speech_requests
    (trace (ui_run [EditInstructions a; EditText b; SelectVoice k; ClickPlay] webapp w).2)
  = speech_requests (trace w) ++
      [(c, {| sp_model := model_name; sp_voice := voice; sp_input := b;
              sp_instructions := a; sp_response_format := "wav" |})].
Proof.
  intros Hk Hc. rewrite !ui_run_cons. cbn [ui_run ui_step fst snd].
  rewrite play_button_click_world, gpt4ominitts_speech_requests, Hc.
  cbn [instructions_box input_box voice_picker].
  unfold dd_select. cbn [dd_choices voice_picker webapp]. by rewrite Hk.
Qed.

Lemma ui_click_sends_current_inputs_witness :
  speech_requests
    (trace (ui_run [EditInstructions "whisper"; EditText "bonne nuit"; SelectVoice 4;
                    ClickPlay] webapp demo_world).2)
  = speech_requests (trace demo_world) ++
      [(demo_client api_version,
        {| sp_model := model_name; sp_voice := "echo"; sp_input := "bonne nuit";
           sp_instructions := "whisper"; sp_response_format := "wav" |})].
Proof.
  apply (ui_click_sends_current_inputs "whisper" "bonne nuit" 4 "echo" demo_world).
  - reflexivity.
  - by vm_compute.
Defined.

Lemma play_button_click_output f w :
  output_on_disk f w → output_on_disk (play_button_click f w).1 (play_button_click f w).2.
Proof.
  intros Hinv. unfold play_button_click.
  destruct (gpt4ominitts _ _ _ w) as [[e|path] w'] eqn:Hrun; cbn; intros p Hp; cbn in Hp.
  - apply gpt4ominitts_error in Hrun as (-> & _). by apply Hinv.
  - injection Hp as <-.
    apply gpt4ominitts_ok in Hrun as (c & audio & _ & _ & _ & -> & _).
    rewrite lookup_insert_eq. by eexists.
Qed.

Lemma ui_step_output a f w :
  output_on_disk f w → output_on_disk (ui_step a f w).1 (ui_step a f w).2.
Proof.
  intros Hinv. destruct a as [s|s|k|]; cbn [ui_step]; try exact Hinv.
  by apply play_button_click_output.
Qed.

Lemma ui_run_output actions f w :
  output_on_disk f w → output_on_disk (ui_run actions f w).1 (ui_run actions f w).2.
Proof.
  revert f w. induction actions as [|a actions IH]; intros f w Hinv; [done|].
  rewrite ui_run_cons. by apply IH, ui_step_output.
Qed.

(** X7: the player never points at a missing file.  Whatever the visitor
    has done, successful and failed clicks mixed, the path shown in
    [output_audio] names a file that is on disk. *)
Theorem webapp_output_audio_on_disk actions w path :
  output_audio (ui_run actions webapp w).1 = Some path →
  is_Some (files (ui_run actions webapp w).2 !! path).
Proof.
  intros Hpath. by apply (ui_run_output actions webapp w).
Qed.

Lemma webapp_output_audio_on_disk_witness :
  is_Some (files (ui_run [ClickPlay; EditText "encore"; ClickPlay] webapp demo_world).2
             !! "/tmp/tmp1.wav").
Proof.
  apply (webapp_output_audio_on_disk [ClickPlay; EditText "encore"; ClickPlay]
           demo_world "/tmp/tmp1.wav").
  by vm_compute.
Defined.

(** ** Where the configuration comes from *)

Lemma environ_with_dotenv_lookup path name w :
  environ_with_dotenv path w !! name = configured path name w.
Proof.
  unfold environ_with_dotenv, configured.
  destruct (dotenv_files w !! path) as [bindings|]; cbn.
  - rewrite lookup_union. by destruct (environ w !! name), (bindings !! name).
  - by destruct (environ w !! name).
Qed.

(** With an explicit endpoint and key the constructor takes them as they
    are; its fallback variables for them are not consulted. *)
Lemma AzureOpenAI_init_explicit env ep key version :
  AzureOpenAI_init env (Some ep) (Some key) version
  = inr {| azure_endpoint := ep; api_key := Some key;
           azure_ad_token := env !! "AZURE_OPENAI_AD_TOKEN";
           client_api_version := version |}.
Proof. unfold AzureOpenAI_init. cbn. by destruct (env !! "AZURE_OPENAI_AD_TOKEN"). Qed.

(** A constructed client: where each of its fields comes from. *)
Lemma AzureOpenAI_init_ok env endpoint key version c :
  AzureOpenAI_init env endpoint key version = inr c →
  from_option Some (env !! "AZURE_OPENAI_ENDPOINT") endpoint = Some (azure_endpoint c)
  ∧ api_key c = from_option Some (env !! "AZURE_OPENAI_API_KEY") key
  ∧ azure_ad_token c = env !! "AZURE_OPENAI_AD_TOKEN"
  ∧ client_api_version c = version.
Proof.
  unfold AzureOpenAI_init.
  destruct (from_option Some (env !! "AZURE_OPENAI_API_KEY") key) as [k|],
    (env !! "AZURE_OPENAI_AD_TOKEN") as [token|],
    (from_option Some (env !! "AZURE_OPENAI_ENDPOINT") endpoint) as [ep|];
    try discriminate; by intros [= <-].
Qed.

(** X8: the structured notebook takes its configuration from the process
    environment first and from [azure.env] second.  When the start-up cells
    succeed, each of the two globals holds the value of its variable in the
    environment if set there, else the value in the file; a global that is
    set is what the client uses; and the client carries the API version
    [2024-08-01-preview]. *)
Theorem startup_environment_precedence w g w' :
  startup w = (inr g, w') →
  AZURE_OPENAI_ENDPOINT g = configured "azure.env" "AZURE_OPENAI_API_ENDPOINT" w
  ∧ AZURE_OPENAI_API_KEY g = configured "azure.env" "AZURE_OPENAI_API_KEY" w
  ∧ (∀ ep, AZURE_OPENAI_ENDPOINT g = Some ep → azure_endpoint (client g) = ep)
  ∧ (∀ key, AZURE_OPENAI_API_KEY g = Some key → api_key (client g) = Some key)
  ∧ client_api_version (client g) = "2024-08-01-preview".
Proof.
  rewrite startup_run. cbn zeta.
  destruct (load_dotenv_world "azure.env" w) as (_ & Henv & _). rewrite Henv.
  rewrite !environ_with_dotenv_lookup.
  destruct (os_bound w); [|discriminate].
  destruct (AzureOpenAI_init _ _ _ _) as [e|c] eqn:Hinit; [discriminate|].
  intros [= <- <-]. cbn.
  apply AzureOpenAI_init_ok in Hinit as (Hep & Hkey & _ & Hversion).
  split_and!; try done.
  - intros ep Hset. rewrite Hset in Hep. cbn in Hep. congruence.
  - intros key Hset. rewrite Hset in Hkey. by cbn in Hkey.
Qed.

Lemma startup_environment_precedence_witness :
  Some "https://demo.openai.azure.com/"
  = configured "azure.env" "AZURE_OPENAI_API_ENDPOINT" dotenv_world
  ∧ Some "demo-key" = configured "azure.env" "AZURE_OPENAI_API_KEY" dotenv_world.
Proof.
  destruct (startup_environment_precedence dotenv_world demo_globals
              (startup dotenv_world).2) as (Hep & Hkey & _); [by vm_compute|].
  by split.
Defined.

(** X9: the speech notebook is configured the same way, and its explicit
    values win over the constructor's own variables.  When [endpoint] and
    [key] are set in the environment or, failing that, in [azure.env], every
    call after start-up builds its client from exactly these two values and
    the API version [2025-03-01-preview]. *)
Theorem tts_startup_configures_client w ep key :
  configured "azure.env" "endpoint" w = Some ep →
  configured "azure.env" "key" w = Some key →
  tts_client (tts_startup w).2
  = inr {| azure_endpoint := ep; api_key := Some key;
           azure_ad_token := configured "azure.env" "AZURE_OPENAI_AD_TOKEN" w;
           client_api_version := "2025-03-01-preview" |}.
Proof.
  intros Hep Hkey. rewrite tts_startup_run. cbn [snd]. unfold tts_client.
  destruct (load_dotenv_world "azure.env" w) as (_ & -> & _).
  rewrite !environ_with_dotenv_lookup, Hep, Hkey, AzureOpenAI_init_explicit.
  by rewrite environ_with_dotenv_lookup.
Qed.

Lemma tts_startup_configures_client_witness :
  tts_client (tts_startup dotenv_world).2
  = inr {| azure_endpoint := "https://demo.openai.azure.com/";
           api_key := Some "demo-key";
           azure_ad_token := configured "azure.env" "AZURE_OPENAI_AD_TOKEN" dotenv_world;
           client_api_version := "2025-03-01-preview" |}.
Proof.
  apply (tts_startup_configures_client dotenv_world); by vm_compute.
Defined.

(** X10: the structured notebook never imports [os].  In a session that
    does not bind the name, the start-up cells stop with [NameError] at the
    first [os.getenv]: the dotenv file has been loaded, but nothing has been
    read and no client exists. *)
Theorem startup_without_os w :
  os_bound w = false →
  (startup w).1 = inl (NameError "os")
  ∧ env_reads (trace (startup w).2) = env_reads (trace w)
  ∧ environ (startup w).2 = environ_with_dotenv "azure.env" w.
Proof.
  intros Hos. rewrite startup_run. cbn zeta. rewrite Hos. cbn [fst snd].
  destruct (load_dotenv_world "azure.env" w) as (-> & -> & _).
  split_and!; [done | | done].
  unfold env_reads. rewrite omap_app. apply app_nil_r.
Qed.

Lemma startup_without_os_witness :
  (startup unbound_world).1 = inl (NameError "os")
  ∧ env_reads (trace (startup unbound_world).2) = env_reads (trace unbound_world)
  ∧ environ (startup unbound_world).2 = environ_with_dotenv "azure.env" unbound_world.
Proof. apply (startup_without_os unbound_world). reflexivity. Defined.


(** ** The extraction flow: its exceptions and its values *)



(** Looking a key up after inserting pairs one by one: the value of one of
    the pairs with that key, or what was there before. *)
Lemma foldl_insert_lookup {V} (pairs : list (string * V)) (acc : gmap string V) k :
  ((k ∉ pairs.*1) ∧ foldl (λ d kv, <[kv.1 := kv.2]> d) acc pairs !! k = acc !! k)
  ∨ ∃ v, (k, v) ∈ pairs ∧ foldl (λ d kv, <[kv.1 := kv.2]> d) acc pairs !! k = Some v.
Proof.
  revert acc. induction pairs as [|[k' v'] pairs IH]; intros acc; cbn.
  { left. split; [apply not_elem_of_nil | done]. }
  destruct (IH (<[k' := v']> acc)) as [[Hnot Hlook] | (v & Hin & Hlook)].
  - destruct (decide (k = k')) as [->|Hne].
    + right. exists v'. split; [left|]. by rewrite Hlook, lookup_insert_eq.
    + left. split; [|by rewrite Hlook, lookup_insert_ne].
      rewrite not_elem_of_cons. by split.
  - right. exists v. split; [by right | done].
Qed.

(** A key that occurs gets the value of one of its pairs. *)
Lemma dict_lookup_member {V} (pairs : list (string * V)) k :
  k ∈ pairs.*1 → ∃ v, (k, v) ∈ pairs ∧ dict pairs !! k = Some v.
Proof.
  intros Hk. unfold dict.
  by destruct (foldl_insert_lookup pairs ∅ k) as [[Hnot _] | Hfound].
Qed.

(** With unique names a field has one declaration. *)
Lemma declared_type_unique (fields : list (string * FieldType)) name ty i ty' :
  NoDup fields.*1 → (name, ty) ∈ fields →
  list_find (λ p, p.1 = name) fields = Some (i, (name, ty')) → ty' = ty.
Proof.
  intros Hnodup Hin Hfind. apply list_find_Some in Hfind as (Hi & _ & _).
  apply list_elem_of_lookup in Hin as [j Hj].
  assert (i = j) as ->; [|congruence].
  eapply NoDup_lookup; [exact Hnodup | |]; rewrite list_lookup_fmap.
  - by rewrite Hi.
  - by rewrite Hj.
Qed.

(** In a conforming object every declared field has a value of its
    declared type, also when the name occurs more than once. *)
Lemma members_conform_lookup model members name ty :
  NoDup (schema_fields model).*1 →
  (name, ty) ∈ schema_fields model →
  members_conform (pydantic_function_tool model) members = true →
  ∃ jv, dict (map (λ kv : string * json, (kv.1, to_py kv.2)) members) !! name
        = Some (to_py jv)
        ∧ has_type jv ty = true.
Proof.
  intros Hnodup Hdeclared Hconform.
  unfold members_conform in Hconform. cbn in Hconform.
  apply andb_prop in Hconform as [Htyped Hrequired].
  rewrite forallb_forall in Htyped. rewrite forallb_forall in Hrequired.
  assert (Hname : name ∈ members.*1).
  { apply (bool_decide_eq_true_1 _), Hrequired, list_elem_of_In.
    apply list_elem_of_fmap. by exists (name, ty). }
  rewrite <- to_py_object_keys in Hname.
  apply dict_lookup_member in Hname as (pv & Hin & Hlook).
  apply list_elem_of_fmap in Hin as ([k jv] & [= -> ->] & Hmember). cbn in *.
  exists jv. split; [done|].
  apply list_elem_of_In, Htyped in Hmember. cbn in Hmember.
  destruct (list_find _ _) as [[i [k' ty']]|] eqn:Hfind; [|done].
  pose proof Hfind as Hfound. apply list_find_Some in Hfound as (_ & Hk' & _).
  cbn in Hk'. subst k'.
  by rewrite <- (declared_type_unique _ _ _ _ _ Hnodup Hdeclared Hfind).
Qed.



(** X14: the look-ups after [json.loads].  On a [dict] they raise
    [KeyError] for the first of the keys that is missing, in the order of the
    [print] lines, and give the values when no key is missing; on any other
    value the first look-up raises [TypeError]. *)
Theorem print_fields_first_missing :
  (∀ d keys,
      print_fields (PDict d) keys
      = match list_find (λ key, d !! key = None) keys with
        | Some (_, key) => inl (KeyError key)
        | None => inr (omap (λ key, d !! key) keys)
        end)
  ∧ (∀ v key keys, (∀ d, v ≠ PDict d) → print_fields v (key :: keys) = inl TypeError).
Proof.
  split.
  - intros d keys. induction keys as [|key keys IH]; [done|].
    cbn [print_fields list_find omap list_omap]. unfold getitem.
    destruct (d !! key) as [x|] eqn:Hkey; cbn.
    + rewrite decide_False by done. rewrite IH.
      by destruct (list_find _ keys) as [[i k]|].
    + by rewrite decide_True.
  - intros v key keys Hv. cbn. destruct v; try done. by destruct (Hv d).
Qed.

Lemma print_fields_first_missing_witness :
  print_fields (PDict (dict [("product", PStr "headphones")])) ["product"; "brand"; "issue"]
  = inl (KeyError "brand")
  ∧ print_fields (PList []) ["product"; "brand"; "issue"] = inl TypeError.
Proof.
  destruct print_fields_first_missing as [Hdict Hother]. split.
  - rewrite Hdict. by vm_compute.
  - by apply Hother.
Defined.

(** A string field decodes to a [str]. *)
Lemma has_type_TStr jv : has_type jv TStr = true → ∃ s, to_py jv = PStr s.
Proof. destruct jv; try discriminate. by eexists. Qed.

(** X15: Example 1 on a conforming answer.  When the arguments conform to
    the tool of [GetInformations], the cells of Example 1 raise nothing, in
    particular no [KeyError], and the three values they print are
    strings. *)
Theorem example1_prints_three_strings g w response f :
  chat_service w (trace w) (client g) (chat_request GetInformations messages1)
  = inr response →
  first_function response = inr f →
  conforming (pydantic_function_tool GetInformations) (fn_arguments f) →
  ∃ d location country language,
    (example1 g w).1
    = inr (PDict d, [PStr location; PStr country; PStr language])
    ∧ d !! "weather_location" = Some (PStr location)
    ∧ d !! "country_location" = Some (PStr country)
    ∧ d !! "country_language" = Some (PStr language).
Proof.
  intros Hresponse Hf (members & Hdecode & Hconform).
  assert (Hnodup : NoDup (schema_fields GetInformations).*1) by by_compute.
  destruct (members_conform_lookup GetInformations members "weather_location" TStr)
    as (j1 & Hl1 & [s1 Hs1]%has_type_TStr); [done | repeat constructor | done |].
  destruct (members_conform_lookup GetInformations members "country_location" TStr)
    as (j2 & Hl2 & [s2 Hs2]%has_type_TStr); [done | repeat constructor | done |].
  destruct (members_conform_lookup GetInformations members "country_language" TStr)
    as (j3 & Hl3 & [s3 Hs3]%has_type_TStr); [done | repeat constructor | done |].
  rewrite Hs1 in Hl1. rewrite Hs2 in Hl2. rewrite Hs3 in Hl3.
  rewrite example1_extraction, !bind_run, extraction_run. cbn zeta.
  rewrite Hresponse. unfold loads_cell. rewrite Hf. cbn -[dict].
  unfold json_loads. rewrite Hdecode. cbn -[dict].
  rewrite Hl1, Hl2, Hl3. cbn -[dict].
  by eexists _, s1, s2, s3.
Qed.

Lemma example1_prints_three_strings_witness :
  ∃ d location country language,
    (example1 demo_globals demo_world).1
    = inr (PDict d, [PStr location; PStr country; PStr language])
    ∧ d !! "weather_location" = Some (PStr location)
    ∧ d !! "country_location" = Some (PStr country)
    ∧ d !! "country_language" = Some (PStr language).
Proof.
  apply (example1_prints_three_strings demo_globals demo_world recorded_response1
           {| fn_arguments :=
                dq "{'weather_location':'Paris','country_location':'France','country_language':'French'}";
              fn_name := "GetInformations" |}).
  - reflexivity.
  - reflexivity.
  - exists [ ("weather_location", JString "Paris");
             ("country_location", JString "France");
             ("country_language", JString "French") ].
    split; by vm_compute.
Defined.

(** X16: the cells that only print raise nothing new.  Examples 1 and 2,
    run cell by cell, end exactly like the request followed by the
    [json.loads] cell and its look-ups: a response on which the printing
    cells would raise makes the [json.loads] cell raise the same. *)
Theorem examples_follow_extraction g w :
  example1 g w
  = (results ← extraction g GetInformations messages1;
     printed ← lift (print_fields results
                       ["weather_location"; "country_location"; "country_language"]);
     mret (results, printed)) w
  ∧ example2 g w
    = (results ← extraction g ProductSupport messages2;
       printed ← lift (print_fields results ["product"; "brand"; "issue"]);
       mret (results, printed)) w.
Proof. split; [apply example1_extraction | apply example2_extraction]. Qed.
